(** * CTk: the scaled, themed top-level window of customtkinter

    A shallow embedding of [customtkinter/windows/ctk_tk.py] (class [CTk]) and
    the properties its specification states about it.

    Conventions of the embedding.
    - Python [int] is [Z]; a value that may be [None] is an [option].
    - The scale factor [_window_scaling] is a Python float.  It is embedded as
      an exact rational ([Q]): products and quotients are the exact ones, and
      [round] and [int] are applied to the exact value.  On scales that are
      powers of two (0.25, 0.5, 2.0, ...) and sizes below 2^53 the float
      operations are exact as well, so both agree there.  NaN and the
      infinities are left out.
    - Calls into [tkinter.Tk] (the [super()] calls) and into the Windows DWM
      API are recorded, in order, in a trace; what the toolkit answers to a
      query is a field of the modelled world.  The toolkit's calls are taken
      to return normally.
    - [__init__], [destroy], the focus handler and the macOS title bar
      switches are not modelled; [init_attributes] gives the attributes as
      [__init__] leaves them.
    - A method is a function in a state-and-exception monad over that world:
      an exception leaves the mutations made before it in place, as in
      Python. *)

From Stdlib Require Import ZArith QArith Qabs List String Ascii Bool Lia.
Import ListNotations.

Open Scope string_scope.
Open Scope Z_scope.

(** ** Python numbers and their text *)

Module PyNum.

(** [round(q)] of Python 3 on a real number: nearest integer, ties to the
    even one. *)
Definition py_round (q : Q) : Z :=
  let n := Qnum q in
  let d := Zpos (Qden q) in
  let f := n / d in
  let r2 := 2 * (n mod d) in
  if r2 <? d then f
  else if d <? r2 then f + 1
  else if Z.even f then f else f + 1.

(** [int(q)]: truncation towards zero. *)
Definition py_int (q : Q) : Z := Z.quot (Qnum q) (Zpos (Qden q)).

Definition is_digit (c : ascii) : bool :=
  let n := nat_of_ascii c in (48 <=? n)%nat && (n <=? 57)%nat.

Definition digit_char (d : Z) : ascii := ascii_of_nat (48 + Z.to_nat d).

Definition digit_val (c : ascii) : Z := Z.of_nat (nat_of_ascii c) - 48.

(** Decimal digits of a natural number, most significant first, pushed in
    front of [acc]. *)
Fixpoint str_nat_aux (fuel : nat) (n : Z) (acc : string) : string :=
  match fuel with
  | O => acc
  | S fuel' =>
      let acc' := String (digit_char (n mod 10)) acc in
      if n <? 10 then acc' else str_nat_aux fuel' (n / 10) acc'
  end.

Definition str_nat (n : Z) : string :=
  str_nat_aux (S (Z.to_nat (Z.log2 n))) n "".

(** [str(z)], which is also what an f-string field [{z}] prints. *)
Definition str_int (z : Z) : string :=
  if z <? 0 then String "-" (str_nat (- z)) else str_nat z.

(** [str(v)] for a value that is an int or [None]. *)
Definition str_opt (v : option Z) : string :=
  match v with
  | Some z => str_int z
  | None => "None"
  end.

Fixpoint digits_val (acc : Z) (s : string) : Z :=
  match s with
  | EmptyString => acc
  | String c s' => digits_val (10 * acc + digit_val c) s'
  end.

(** [int(s)] on a text of the shape [[+-]?[0-9]+], the only shape the
    geometry pattern captures. *)
Definition int_of_str (s : string) : Z :=
  match s with
  | String "-" s' => - digits_val 0 s'
  | String "+" s' => digits_val 0 s'
  | _ => digits_val 0 s
  end.

End PyNum.
Import PyNum.

(** ** A backtracking matcher for the fragment of [re] the module uses *)

Module Re.

Inductive charclass :=
| CChar (c : ascii)            (* a literal character *)
| CDigit                       (* \d *)
| CSet (cs : list ascii).      (* [...] *)

Inductive regex :=
| Cls (p : charclass)          (* one character of the class *)
| Plus (p : charclass)         (* p+, greedy *)
| Opt (r : regex)              (* r{0,1}, greedy *)
| Cat (r1 r2 : regex)
| Grp (n : nat) (r : regex).   (* capturing group number n *)

Definition in_class (p : charclass) (c : ascii) : bool :=
  match p with
  | CChar c' => Ascii.eqb c c'
  | CDigit => is_digit c
  | CSet cs => existsb (Ascii.eqb c) cs
  end.

(** Captures: the latest binding of a group is the first in the list. *)
Definition captures := list (nat * string).

Fixpoint group (c : captures) (n : nat) : option string :=
  match c with
  | [] => None
  | (m, s) :: c' => if Nat.eqb m n then Some s else group c' n
  end.

(** The text consumed between the input [s] and its suffix [s']. *)
Definition consumed (s s' : string) : string :=
  substring 0 (String.length s - String.length s') s.

Section Matcher.
Context {A : Type}.

(** One or more characters of [p]: the longest run first, then shorter
    ones when the continuation fails. *)
Fixpoint plus_from (p : charclass) (s : string)
                   (k : string -> option A) : option A :=
  match s with
  | EmptyString => None
  | String c s' =>
      if in_class p c then
        match plus_from p s' k with
        | Some r => Some r
        | None => k s'
        end
      else None
  end.

Fixpoint rmatch (r : regex) (s : string) (c : captures)
                (k : string -> captures -> option A) : option A :=
  match r with
  | Cls p =>
      match s with
      | EmptyString => None
      | String ch s' => if in_class p ch then k s' c else None
      end
  | Plus p => plus_from p s (fun s' => k s' c)
  | Opt r1 =>
      match rmatch r1 s c k with
      | Some x => Some x
      | None => k s c
      end
  | Cat r1 r2 => rmatch r1 s c (fun s' c' => rmatch r2 s' c' k)
  | Grp n r1 => rmatch r1 s c (fun s' c' => k s' ((n, consumed s s') :: c'))
  end.
End Matcher.

(** [re.match]: the pattern anchored at the start of [s]. *)
Definition re_match (r : regex) (s : string) : option captures :=
  rmatch r s [] (fun _ c => Some c).

(** [re.search]: the first start offset at which the pattern matches. *)
Fixpoint re_search (r : regex) (s : string) : option captures :=
  match re_match r s with
  | Some c => Some c
  | None =>
      match s with
      | EmptyString => None
      | String _ s' => re_search r s'
      end
  end.

End Re.
Import Re.

(** ** Exceptions and the geometry codec *)

Inductive exn :=
| TypeError
| AttributeError
| ZeroDivisionError
| ValueError (keys : list string).

(** The pattern of [_parse_geometry_string],
    r"((\d+)x(\d+)){0,1}(\+{0,1}([+-]{0,1}\d+)\+{0,1}([+-]{0,1}\d+)){0,1}",
    in its parts. *)

(** ((\d+)x(\d+)): groups 1, 2 and 3. *)
Definition size_part : regex :=
  Grp 1 (Cat (Grp 2 (Plus CDigit)) (Cat (Cls (CChar "x")) (Grp 3 (Plus CDigit)))).

(** [+-]{0,1}\d+ *)
Definition signed_number : regex :=
  Cat (Opt (Cls (CSet ["+"; "-"]%char))) (Plus CDigit).

(** (\+{0,1}([+-]{0,1}\d+)\+{0,1}([+-]{0,1}\d+)): groups 4, 5 and 6. *)
Definition position_part : regex :=
  Grp 4 (Cat (Opt (Cls (CChar "+")))
        (Cat (Grp 5 signed_number)
        (Cat (Opt (Cls (CChar "+")))
             (Grp 6 signed_number)))).

Definition geometry_pattern : regex :=
  Cat (Opt size_part) (Opt position_part).

Definition geometry_fields : Type := option Z * option Z * option Z * option Z.

(** [CTk._parse_geometry_string].  [result.group] on a failed search would be
    an AttributeError. *)
Definition _parse_geometry_string (geometry_string : string) : exn + geometry_fields :=
  match re_search geometry_pattern geometry_string with
  | None => inl AttributeError
  | Some result =>
      let width := option_map int_of_str (group result 2) in
      let height := option_map int_of_str (group result 3) in
      let x := option_map int_of_str (group result 5) in
      let y := option_map int_of_str (group result 6) in
      inr (width, height, x, y)
  end.

(** ** The window: the fields of [CTk], the toolkit underneath, the host *)

(** Python values that reach the window as option values. *)
Inductive pyval :=
| VNone
| VBool (b : bool)
| VInt (z : Z)
| VStr (s : string)
| VPair (light dark : string).      (* a (light, dark) colour pair *)

(** Keyword arguments: a dict, in insertion order, keys unique. *)
Definition kwargs := list (string * pyval).

(** Callbacks handed to [after]. *)
Inductive callback :=
| Cb_set_scaled_min_max
| Cb_set_block_update_dimensions_event_false.

(** What the window asks of [tkinter.Tk], of its children and of the DWM. *)
Inductive call :=
| Tk_minsize (width height : option Z)
| Tk_maxsize (width height : option Z)
| Tk_geometry (new_geometry : string)
| Tk_geometry_query
| Tk_configure (options : kwargs)
| Tk_cget (key : string)
| Tk_withdraw
| Tk_iconify
| Tk_deiconify
| Tk_state_query
| Tk_state (new_state : string)
| Tk_update
| Tk_update_idletasks
| Tk_mainloop
| Tk_resizable (width height : option bool)
| Tk_winfo_width
| Tk_winfo_height
| Tk_winfo_children
| Tk_winfo_id
| Tk_after (ms : Z) (cb : callback)
| Child_configure (index : nat) (options : kwargs)
| GetParent (window_id : Z)
| DwmSetWindowAttribute (hwnd attribute value : Z)
| Print_err.

(** A child widget, as far as [configure] can tell: whether it takes a
    [bg_color] option, and the one it was last given. *)
Record child := mk_child {
  accepts_bg_color : bool;
  bg_color : option pyval
}.

(** The attributes of a [CTk] instance. *)
Record ctk := mk_ctk {
  _appearance_mode : Z;                (* 0: "Light" 1: "Dark" *)
  _window_scaling : Q;
  _current_width : Z;                  (* always without scaling *)
  _current_height : Z;
  _min_width : option Z;
  _min_height : option Z;
  _max_width : option Z;
  _max_height : option Z;
  _last_resizable_args : option (option bool * option bool);
  _fg_color : pyval;
  _state_before_windows_set_titlebar_color : option string;
  _window_exists : bool;
  _withdraw_called_before_window_exists : bool;
  _iconify_called_before_window_exists : bool;
  _block_update_dimensions_event : bool
}.

(** The toolkit underneath: what [tkinter.Tk] answers when asked, and the
    children of the window. *)
Record toolkit := mk_toolkit {
  wm_state : string;                   (* the answer of state() *)
  wm_geometry : string;                (* the answer of geometry() *)
  wm_width : Z;                        (* the answer of winfo_width() *)
  wm_height : Z;                       (* the answer of winfo_height() *)
  wm_id : Z;                           (* the answer of winfo_id() *)
  cget_answer : string -> pyval;       (* the answer of Tk.cget *)
  children : list child
}.

(** The host and the collaborators, which the window only reads. *)
Record host := mk_host {
  platform : string;                                  (* sys.platform *)
  deactivate_windows_window_header_manipulation : bool;    (* Settings *)
  single_color : pyval -> Z -> string;                (* ThemeManager.single_color *)
  get_parent : Z -> option Z;                         (* user32.GetParent; None: it raises *)
  dwm_set_window_attribute : Z -> Z -> Z -> option Z  (* dwmapi; None: it raises *)
}.

Record world := mk_world {
  self : ctk;
  tk : toolkit;
  os : host;
  calls : list call;                   (* what has been asked so far, oldest first *)
  pending : list (Z * callback)        (* the timers not yet fired *)
}.

(** Attribute assignment, one setter per attribute. *)

Definition upd_appearance_mode (v : Z) (s : ctk) : ctk :=
  mk_ctk v (_window_scaling s) (_current_width s) (_current_height s) (_min_width s)
    (_min_height s) (_max_width s) (_max_height s) (_last_resizable_args s) (_fg_color s)
    (_state_before_windows_set_titlebar_color s) (_window_exists s)
    (_withdraw_called_before_window_exists s) (_iconify_called_before_window_exists s)
    (_block_update_dimensions_event s).

Definition upd_window_scaling (v : Q) (s : ctk) : ctk :=
  mk_ctk (_appearance_mode s) v (_current_width s) (_current_height s) (_min_width s)
    (_min_height s) (_max_width s) (_max_height s) (_last_resizable_args s) (_fg_color s)
    (_state_before_windows_set_titlebar_color s) (_window_exists s)
    (_withdraw_called_before_window_exists s) (_iconify_called_before_window_exists s)
    (_block_update_dimensions_event s).

Definition upd_current_width (v : Z) (s : ctk) : ctk :=
  mk_ctk (_appearance_mode s) (_window_scaling s) v (_current_height s) (_min_width s)
    (_min_height s) (_max_width s) (_max_height s) (_last_resizable_args s) (_fg_color s)
    (_state_before_windows_set_titlebar_color s) (_window_exists s)
    (_withdraw_called_before_window_exists s) (_iconify_called_before_window_exists s)
    (_block_update_dimensions_event s).

Definition upd_current_height (v : Z) (s : ctk) : ctk :=
  mk_ctk (_appearance_mode s) (_window_scaling s) (_current_width s) v (_min_width s)
    (_min_height s) (_max_width s) (_max_height s) (_last_resizable_args s) (_fg_color s)
    (_state_before_windows_set_titlebar_color s) (_window_exists s)
    (_withdraw_called_before_window_exists s) (_iconify_called_before_window_exists s)
    (_block_update_dimensions_event s).

Definition upd_min_width (v : option Z) (s : ctk) : ctk :=
  mk_ctk (_appearance_mode s) (_window_scaling s) (_current_width s) (_current_height s) v
    (_min_height s) (_max_width s) (_max_height s) (_last_resizable_args s) (_fg_color s)
    (_state_before_windows_set_titlebar_color s) (_window_exists s)
    (_withdraw_called_before_window_exists s) (_iconify_called_before_window_exists s)
    (_block_update_dimensions_event s).

Definition upd_min_height (v : option Z) (s : ctk) : ctk :=
  mk_ctk (_appearance_mode s) (_window_scaling s) (_current_width s) (_current_height s)
    (_min_width s) v (_max_width s) (_max_height s) (_last_resizable_args s) (_fg_color s)
    (_state_before_windows_set_titlebar_color s) (_window_exists s)
    (_withdraw_called_before_window_exists s) (_iconify_called_before_window_exists s)
    (_block_update_dimensions_event s).

Definition upd_max_width (v : option Z) (s : ctk) : ctk :=
  mk_ctk (_appearance_mode s) (_window_scaling s) (_current_width s) (_current_height s)
    (_min_width s) (_min_height s) v (_max_height s) (_last_resizable_args s) (_fg_color s)
    (_state_before_windows_set_titlebar_color s) (_window_exists s)
    (_withdraw_called_before_window_exists s) (_iconify_called_before_window_exists s)
    (_block_update_dimensions_event s).

Definition upd_max_height (v : option Z) (s : ctk) : ctk :=
  mk_ctk (_appearance_mode s) (_window_scaling s) (_current_width s) (_current_height s)
    (_min_width s) (_min_height s) (_max_width s) v (_last_resizable_args s) (_fg_color s)
    (_state_before_windows_set_titlebar_color s) (_window_exists s)
    (_withdraw_called_before_window_exists s) (_iconify_called_before_window_exists s)
    (_block_update_dimensions_event s).

Definition upd_last_resizable_args (v : option (option bool * option bool)) (s : ctk) : ctk :=
  mk_ctk (_appearance_mode s) (_window_scaling s) (_current_width s) (_current_height s)
    (_min_width s) (_min_height s) (_max_width s) (_max_height s) v (_fg_color s)
    (_state_before_windows_set_titlebar_color s) (_window_exists s)
    (_withdraw_called_before_window_exists s) (_iconify_called_before_window_exists s)
    (_block_update_dimensions_event s).

Definition upd_fg_color (v : pyval) (s : ctk) : ctk :=
  mk_ctk (_appearance_mode s) (_window_scaling s) (_current_width s) (_current_height s)
    (_min_width s) (_min_height s) (_max_width s) (_max_height s) (_last_resizable_args s) v
    (_state_before_windows_set_titlebar_color s) (_window_exists s)
    (_withdraw_called_before_window_exists s) (_iconify_called_before_window_exists s)
    (_block_update_dimensions_event s).

Definition upd_state_before_windows_set_titlebar_color (v : option string) (s : ctk) : ctk :=
  mk_ctk (_appearance_mode s) (_window_scaling s) (_current_width s) (_current_height s)
    (_min_width s) (_min_height s) (_max_width s) (_max_height s) (_last_resizable_args s)
    (_fg_color s) v (_window_exists s) (_withdraw_called_before_window_exists s)
    (_iconify_called_before_window_exists s) (_block_update_dimensions_event s).

Definition upd_window_exists (v : bool) (s : ctk) : ctk :=
  mk_ctk (_appearance_mode s) (_window_scaling s) (_current_width s) (_current_height s)
    (_min_width s) (_min_height s) (_max_width s) (_max_height s) (_last_resizable_args s)
    (_fg_color s) (_state_before_windows_set_titlebar_color s) v
    (_withdraw_called_before_window_exists s) (_iconify_called_before_window_exists s)
    (_block_update_dimensions_event s).

Definition upd_withdraw_called_before_window_exists (v : bool) (s : ctk) : ctk :=
  mk_ctk (_appearance_mode s) (_window_scaling s) (_current_width s) (_current_height s)
    (_min_width s) (_min_height s) (_max_width s) (_max_height s) (_last_resizable_args s)
    (_fg_color s) (_state_before_windows_set_titlebar_color s) (_window_exists s) v
    (_iconify_called_before_window_exists s) (_block_update_dimensions_event s).

Definition upd_iconify_called_before_window_exists (v : bool) (s : ctk) : ctk :=
  mk_ctk (_appearance_mode s) (_window_scaling s) (_current_width s) (_current_height s)
    (_min_width s) (_min_height s) (_max_width s) (_max_height s) (_last_resizable_args s)
    (_fg_color s) (_state_before_windows_set_titlebar_color s) (_window_exists s)
    (_withdraw_called_before_window_exists s) v (_block_update_dimensions_event s).

Definition upd_block_update_dimensions_event (v : bool) (s : ctk) : ctk :=
  mk_ctk (_appearance_mode s) (_window_scaling s) (_current_width s) (_current_height s)
    (_min_width s) (_min_height s) (_max_width s) (_max_height s) (_last_resizable_args s)
    (_fg_color s) (_state_before_windows_set_titlebar_color s) (_window_exists s)
    (_withdraw_called_before_window_exists s) (_iconify_called_before_window_exists s) v.


Definition set_self (f : ctk -> ctk) (w : world) : world :=
  mk_world (f (self w)) (tk w) (os w) (calls w) (pending w).

Definition set_wm_state (v : string) (w : world) : world :=
  let t := tk w in
  mk_world (self w)
    (mk_toolkit v (wm_geometry t) (wm_width t) (wm_height t) (wm_id t) (cget_answer t) (children t))
    (os w) (calls w) (pending w).

Definition set_children (v : list child) (w : world) : world :=
  let t := tk w in
  mk_world (self w)
    (mk_toolkit (wm_state t) (wm_geometry t) (wm_width t) (wm_height t) (wm_id t) (cget_answer t) v)
    (os w) (calls w) (pending w).

Definition record_call (c : call) (w : world) : world :=
  mk_world (self w) (tk w) (os w) (calls w ++ [c]) (pending w).

Definition add_pending (ms : Z) (cb : callback) (w : world) : world :=
  mk_world (self w) (tk w) (os w) (calls w) (pending w ++ [(ms, cb)]).

Definition set_pending (p : list (Z * callback)) (w : world) : world :=
  mk_world (self w) (tk w) (os w) (calls w) p.

(** ** The monad of methods: state, and exceptions that keep the state *)

Definition M (A : Type) : Type := world -> (exn + A) * world.

Definition ret {A : Type} (a : A) : M A := fun w => (inr a, w).

Definition bind {A B : Type} (m : M A) (k : A -> M B) : M B :=
  fun w =>
    match m w with
    | (inl e, w') => (inl e, w')
    | (inr a, w') => k a w'
    end.

Definition raise {A : Type} (e : exn) : M A := fun w => (inl e, w).

(** [try: m except Exception as err: h err] *)
Definition try_except {A : Type} (m : M A) (h : exn -> M A) : M A :=
  fun w =>
    match m w with
    | (inl e, w') => h e w'
    | (inr a, w') => (inr a, w')
    end.

Declare Scope monad_scope.
Delimit Scope monad_scope with monad.
Notation "x <- m ;; k" := (bind m (fun x => k))
  (at level 61, m at next level, right associativity) : monad_scope.
Notation "m ;; k" := (bind m (fun _ => k))
  (at level 61, right associativity) : monad_scope.
Open Scope monad_scope.

(** Reading [self.a], assigning [self.a = v], reading the host. *)
Definition attr {A : Type} (a : ctk -> A) : M A := fun w => (inr (a (self w)), w).
Definition assign (f : ctk -> ctk) : M unit := fun w => (inr tt, set_self f w).
Definition from_host {A : Type} (a : host -> A) : M A := fun w => (inr (a (os w)), w).

(** A call that is only recorded. *)
Definition super (c : call) : M unit := fun w => (inr tt, record_call c w).

(** A query: recorded, and answered by the toolkit. *)
Definition ask {A : Type} (c : call) (a : toolkit -> A) : M A :=
  fun w => (inr (a (tk w)), record_call c w).

(** The window-manager state follows withdraw, iconify, deiconify and
    state(new). *)
Definition wm (c : call) (new_state : string) : M unit :=
  fun w => (inr tt, set_wm_state new_state (record_call c w)).

Definition after (ms : Z) (cb : callback) : M unit :=
  fun w => (inr tt, add_pending ms cb (record_call (Tk_after ms cb) w)).

(** *** Python operators that can raise *)

(** [a < b] where [b] may be [None]. *)
Definition py_lt (a : Z) (b : option Z) : M bool :=
  match b with
  | Some b' => ret (a <? b')
  | None => raise TypeError
  end.

(** [a > b] where [b] may be [None]. *)
Definition py_gt (a : Z) (b : option Z) : M bool :=
  match b with
  | Some b' => ret (b' <? a)
  | None => raise TypeError
  end.

(** [min(a, b)] and [max(a, b)] where an argument may be [None]. *)
Definition py_min (a b : option Z) : M Z :=
  match a, b with
  | Some a', Some b' => ret (Z.min a' b')
  | _, _ => raise TypeError
  end.

Definition py_max (a b : option Z) : M Z :=
  match a, b with
  | Some a', Some b' => ret (Z.max a' b')
  | _, _ => raise TypeError
  end.

(** [v * scaling] where [v] may be [None]. *)
Definition py_mul (v : option Z) (scaling : Q) : M Q :=
  match v with
  | Some z => ret (inject_Z z * scaling)%Q
  | None => raise TypeError
  end.

(** [v / scaling] where [v] may be [None]. *)
Definition py_div (v : option Z) (scaling : Q) : M Q :=
  match v with
  | Some z =>
      if Qeq_bool scaling 0 then raise ZeroDivisionError
      else ret (inject_Z z / scaling)%Q
  | None => raise TypeError
  end.

Definition is_none {A : Type} (o : option A) : bool :=
  match o with
  | None => true
  | Some _ => false
  end.

(** [a != s] where [a] may be [None]. *)
Definition str_ne (a : option string) (s : string) : bool :=
  match a with
  | Some a' => negb (String.eqb a' s)
  | None => true
  end.

Definition lower_char (c : ascii) : ascii :=
  let n := nat_of_ascii c in
  if (65 <=? n)%nat && (n <=? 90)%nat then ascii_of_nat (n + 32) else c.

(** [s.lower()] *)
Fixpoint lower (s : string) : string :=
  match s with
  | EmptyString => EmptyString
  | String c s' => String (lower_char c) (lower s')
  end.

(** [s.startswith(p)] *)
Definition startswith (s p : string) : bool := String.prefix p s.

Definition lift {A : Type} (r : exn + A) : M A :=
  match r with
  | inl e => raise e
  | inr a => ret a
  end.

(** ** The helpers of [utility/utility_functions.py] *)

Fixpoint kwargs_get (key : string) (d : kwargs) : option pyval :=
  match d with
  | [] => None
  | (k, v) :: d' => if String.eqb k key then Some v else kwargs_get key d'
  end.

Definition kwargs_remove (key : string) (d : kwargs) : kwargs :=
  filter (fun kv => negb (String.eqb (fst kv) key)) d.

Definition kwargs_keys (d : kwargs) : list string := map fst d.

Definition key_in (key : string) (keys : list string) : bool :=
  existsb (String.eqb key) keys.

(** Modelled from the spec: [pop_from_dict_by_set] of
    [utility/utility_functions.py], which is not among the sources.  The
    spec calls it argument filtering against an allow-list: the entries whose
    key is in [valid_keys] are taken out of the dict and returned; the second
    component is what is left in the caller's dict. *)
Definition pop_from_dict_by_set (dictionary : kwargs) (valid_keys : list string)
  : kwargs * kwargs :=
  (filter (fun kv => key_in (fst kv) valid_keys) dictionary,
   filter (fun kv => negb (key_in (fst kv) valid_keys)) dictionary).

(** Modelled from the spec: [check_kwargs_empty] of
    [utility/utility_functions.py], which is not among the sources.  The
    spec says that an option left unrecognized after filtering fails the call
    with an error naming the offending key(s), for the constructor (which
    passes [raise_error=True]) and for [configure] (which passes no flag)
    alike.  [raise_error] is the flag as passed, [None] when it is omitted;
    only an explicit [False] is taken to silence the error. *)
Definition check_kwargs_empty (kwargs_dict : kwargs) (raise_error : option bool)
  : M bool :=
  match kwargs_dict with
  | [] => ret true
  | _ :: _ =>
      match raise_error with
      | Some false => ret false
      | _ => raise (ValueError (kwargs_keys kwargs_dict))
      end
  end.

(** ** The methods of [CTk] *)

Definition _valid_tk_constructor_arguments : list string :=
  ["screenName"; "baseName"; "className"; "useTk"; "sync"; "use"].

Definition _valid_tk_configure_arguments : list string :=
  ["bd"; "borderwidth"; "class"; "menu"; "relief"; "screen";
   "use"; "container"; "cursor"; "height";
   "highlightthickness"; "padx"; "pady"; "takefocus"; "visual"; "width"].

(** The attributes as [__init__] assigns them, given the answers of
    [AppearanceModeTracker.get_mode()] and
    [ScalingTracker.get_window_scaling(self)] and the resolved [fg_color]. *)
Definition init_attributes (mode : Z) (scaling : Q) (fg_color : pyval) : ctk :=
  mk_ctk mode scaling 600 500 (Some 0) (Some 0) (Some 1000000) (Some 1000000)
         None fg_color None false false false false.

Definition _apply_window_scaling (value : option Z) : M (option Z) :=
  match value with
  | Some v =>                        (* isinstance(value, (int, float)) *)
      scaling <- attr _window_scaling ;;
      ret (Some (py_int (inject_Z v * scaling)%Q))
  | None => ret None
  end.

Definition _update_dimensions_event : M unit :=
  blocked <- attr _block_update_dimensions_event ;;
  if negb blocked then
    super Tk_update_idletasks ;;
    detected_width <- ask Tk_winfo_width wm_width ;;
    detected_height <- ask Tk_winfo_height wm_height ;;
    scaling <- attr _window_scaling ;;
    current_width <- attr _current_width ;;
    current_height <- attr _current_height ;;
    w <- py_div (Some detected_width) scaling ;;
    h <- py_div (Some detected_height) scaling ;;
    if negb (current_width =? py_round w) || negb (current_height =? py_round h) then
      assign (upd_current_width (py_round w)) ;;
      assign (upd_current_height (py_round h))
    else ret tt
  else ret tt.

Definition _set_scaled_min_max : M unit :=
  min_width <- attr _min_width ;;
  min_height <- attr _min_height ;;
  (if negb (is_none min_width) || negb (is_none min_height) then
     w <- _apply_window_scaling min_width ;;
     h <- _apply_window_scaling min_height ;;
     super (Tk_minsize w h)
   else ret tt) ;;
  max_width <- attr _max_width ;;
  max_height <- attr _max_height ;;
  if negb (is_none max_width) || negb (is_none max_height) then
    w <- _apply_window_scaling max_width ;;
    h <- _apply_window_scaling max_height ;;
    super (Tk_maxsize w h)
  else ret tt.

Definition _set_scaling (new_widget_scaling new_spacing_scaling new_window_scaling : Q)
  : M unit :=
  assign (upd_window_scaling new_window_scaling) ;;
  (* block update_dimensions_event *)
  assign (upd_block_update_dimensions_event true) ;;
  (* force new dimensions on window by using min, max, and geometry *)
  current_width <- attr _current_width ;;
  current_height <- attr _current_height ;;
  w <- _apply_window_scaling (Some current_width) ;;
  h <- _apply_window_scaling (Some current_height) ;;
  super (Tk_minsize w h) ;;
  w <- _apply_window_scaling (Some current_width) ;;
  h <- _apply_window_scaling (Some current_height) ;;
  super (Tk_maxsize w h) ;;
  w <- _apply_window_scaling (Some current_width) ;;
  h <- _apply_window_scaling (Some current_height) ;;
  super (Tk_geometry (str_opt w ++ "x" ++ str_opt h)) ;;
  (* set new scaled min and max with 400ms delay *)
  after 400 Cb_set_scaled_min_max ;;
  (* release the blocking after a small amount of time *)
  after 100 Cb_set_block_update_dimensions_event_false.

(** What a timer runs when it fires. *)
Definition fire (cb : callback) : M unit :=
  match cb with
  | Cb_set_scaled_min_max => _set_scaled_min_max
  | Cb_set_block_update_dimensions_event_false =>
      assign (upd_block_update_dimensions_event false)
  end.

(** The timers in the order the event loop fires them: by delay, and in the
    order of scheduling among equal delays. *)
Fixpoint insert_timer (t : Z * callback) (l : list (Z * callback)) : list (Z * callback) :=
  match l with
  | [] => [t]
  | t' :: l' => if fst t <? fst t' then t :: l else t' :: insert_timer t l'
  end.

Definition in_firing_order (l : list (Z * callback)) : list (Z * callback) :=
  fold_left (fun acc t => insert_timer t acc) l [].

Fixpoint fire_all (l : list (Z * callback)) : M unit :=
  match l with
  | [] => ret tt
  | (_, cb) :: l' => fire cb ;; fire_all l'
  end.

(** The event loop lets every pending timer expire. *)
Definition run_pending : M unit :=
  fun w => fire_all (in_firing_order (pending w)) (set_pending [] w).

Definition withdraw : M unit :=
  window_exists <- attr _window_exists ;;
  (if negb window_exists then assign (upd_withdraw_called_before_window_exists true)
   else ret tt) ;;
  wm Tk_withdraw "withdrawn".

Definition iconify : M unit :=
  window_exists <- attr _window_exists ;;
  (if negb window_exists then assign (upd_iconify_called_before_window_exists true)
   else ret tt) ;;
  wm Tk_iconify "iconic".

Definition update : M unit :=
  window_exists <- attr _window_exists ;;
  (if negb window_exists then
     assign (upd_window_exists true) ;;
     p <- from_host platform ;;
     if startswith p "win" then
       withdrawn <- attr _withdraw_called_before_window_exists ;;
       iconified <- attr _iconify_called_before_window_exists ;;
       if negb withdrawn && negb iconified then wm Tk_deiconify "normal" else ret tt
     else ret tt
   else ret tt) ;;
  super Tk_update.

Definition mainloop : M unit :=
  window_exists <- attr _window_exists ;;
  (if negb window_exists then
     assign (upd_window_exists true) ;;
     p <- from_host platform ;;
     if startswith p "win" then
       withdrawn <- attr _withdraw_called_before_window_exists ;;
       iconified <- attr _iconify_called_before_window_exists ;;
       if negb withdrawn && negb iconified then wm Tk_deiconify "normal" else ret tt
     else ret tt
   else ret tt) ;;
  super Tk_mainloop.

Definition minsize (width height : option Z) : M unit :=
  assign (upd_min_width width) ;;
  assign (upd_min_height height) ;;
  current_width <- attr _current_width ;;
  below <- py_lt current_width width ;;
  (match width with
   | Some w => if below then assign (upd_current_width w) else ret tt
   | None => ret tt
   end) ;;
  current_height <- attr _current_height ;;
  below <- py_lt current_height height ;;
  (match height with
   | Some h => if below then assign (upd_current_height h) else ret tt
   | None => ret tt
   end) ;;
  min_width <- attr _min_width ;;
  w <- _apply_window_scaling min_width ;;
  min_height <- attr _min_height ;;
  h <- _apply_window_scaling min_height ;;
  super (Tk_minsize w h).

Definition maxsize (width height : option Z) : M unit :=
  assign (upd_max_width width) ;;
  assign (upd_max_height height) ;;
  current_width <- attr _current_width ;;
  above <- py_gt current_width width ;;
  (match width with
   | Some w => if above then assign (upd_current_width w) else ret tt
   | None => ret tt
   end) ;;
  current_height <- attr _current_height ;;
  above <- py_gt current_height height ;;
  (match height with
   | Some h => if above then assign (upd_current_height h) else ret tt
   | None => ret tt
   end) ;;
  max_width <- attr _max_width ;;
  w <- _apply_window_scaling max_width ;;
  max_height <- attr _max_height ;;
  h <- _apply_window_scaling max_height ;;
  super (Tk_maxsize w h).

Definition _apply_geometry_scaling (geometry_string : string) : M string :=
  fields <- lift (_parse_geometry_string geometry_string) ;;
  let '(width, height, x, y) := fields in
  scaling <- attr _window_scaling ;;
  if is_none x && is_none y then         (* no <x> and <y> in geometry_string *)
    w <- py_mul width scaling ;;
    h <- py_mul height scaling ;;
    ret (str_int (py_round w) ++ "x" ++ str_int (py_round h))
  else if is_none width && is_none height then   (* no <width> and <height> *)
    ret ("+" ++ str_opt x ++ "+" ++ str_opt y)
  else
    w <- py_mul width scaling ;;
    h <- py_mul height scaling ;;
    ret (str_int (py_round w) ++ "x" ++ str_int (py_round h)
         ++ "+" ++ str_opt x ++ "+" ++ str_opt y).

Definition _reverse_geometry_scaling (scaled_geometry_string : string) : M string :=
  fields <- lift (_parse_geometry_string scaled_geometry_string) ;;
  let '(width, height, x, y) := fields in
  scaling <- attr _window_scaling ;;
  if is_none x && is_none y then
    w <- py_div width scaling ;;
    h <- py_div height scaling ;;
    ret (str_int (py_round w) ++ "x" ++ str_int (py_round h))
  else if is_none width && is_none height then
    ret ("+" ++ str_opt x ++ "+" ++ str_opt y)
  else
    w <- py_div width scaling ;;
    h <- py_div height scaling ;;
    ret (str_int (py_round w) ++ "x" ++ str_int (py_round h)
         ++ "+" ++ str_opt x ++ "+" ++ str_opt y).

(** [geometry(None)] is the query and returns a string; [geometry(s)] is the
    setter and returns [None]. *)
Definition geometry (geometry_string : option string) : M (option string) :=
  match geometry_string with
  | Some gs =>
      scaled <- _apply_geometry_scaling gs ;;
      super (Tk_geometry scaled) ;;
      (* update width and height attributes *)
      fields <- lift (_parse_geometry_string gs) ;;
      let '(width, height, x, y) := fields in
      (if negb (is_none width) && negb (is_none height) then
         min_width <- attr _min_width ;;
         max_width <- attr _max_width ;;
         inner <- py_min width max_width ;;
         bounded <- py_max min_width (Some inner) ;;
         assign (upd_current_width bounded) ;;
         min_height <- attr _min_height ;;
         max_height <- attr _max_height ;;
         inner <- py_min height max_height ;;
         bounded <- py_max min_height (Some inner) ;;
         assign (upd_current_height bounded)
       else ret tt) ;;
      ret None
  | None =>
      answer <- ask Tk_geometry_query wm_geometry ;;
      logical <- _reverse_geometry_scaling answer ;;
      ret (Some logical)
  end.

(** The loop of [configure] over [winfo_children()]: a child that does not
    take [bg_color] raises, and the exception is swallowed. *)
Fixpoint configure_children (index : nat) (cs : list child) (fg : pyval)
  : M (list child) :=
  match cs with
  | [] => ret []
  | c :: cs' =>
      super (Child_configure index [("bg_color", fg)]) ;;
      rest <- configure_children (S index) cs' fg ;;
      ret ((if accepts_bg_color c then mk_child true (Some fg) else c) :: rest)
  end.

(** The block of [configure] under [if "fg_color" in kwargs]; it returns
    [kwargs] as the [pop] leaves it. *)
Definition configure_fg_color (kw : kwargs) : M kwargs :=
  match kwargs_get "fg_color" kw with
  | Some v =>
      assign (upd_fg_color v) ;;              (* kwargs.pop("fg_color") *)
      fg <- attr _fg_color ;;
      mode <- attr _appearance_mode ;;
      resolve <- from_host single_color ;;
      super (Tk_configure [("bg", VStr (resolve fg mode))]) ;;
      cs <- ask Tk_winfo_children children ;;
      cs' <- configure_children 0 cs fg ;;
      (fun w => (inr tt, set_children cs' w)) ;;
      ret (kwargs_remove "fg_color" kw)
  | None => ret kw
  end.

Definition configure (kw : kwargs) : M unit :=
  kw <- configure_fg_color kw ;;
  let '(recognized, rest) := pop_from_dict_by_set kw _valid_tk_configure_arguments in
  super (Tk_configure recognized) ;;
  check_kwargs_empty rest None ;;
  ret tt.

Definition cget (attribute_name : string) : M pyval :=
  if String.eqb attribute_name "fg_color" then attr _fg_color
  else ask (Tk_cget attribute_name) (fun t => cget_answer t attribute_name).

Definition DWMWA_USE_IMMERSIVE_DARK_MODE : Z := 20.
Definition DWMWA_USE_IMMERSIVE_DARK_MODE_BEFORE_20H1 : Z := 19.

(** A DWM or user32 call: recorded; [None] from the host is an exception. *)
Definition native {A : Type} (c : call) (answer : host -> option A) : M A :=
  fun w =>
    match answer (os w) with
    | Some a => (inr a, record_call c w)
    | None => (inl AttributeError, record_call c w)
    end.

Definition _windows_set_titlebar_color (color_mode : string) : M unit :=
  p <- from_host platform ;;
  deactivated <- from_host deactivate_windows_window_header_manipulation ;;
  if startswith p "win" && negb deactivated then
    window_exists <- attr _window_exists ;;
    (if window_exists then
       st <- ask Tk_state_query wm_state ;;
       assign (upd_state_before_windows_set_titlebar_color (Some st)) ;;
       before <- attr _state_before_windows_set_titlebar_color ;;
       if str_ne before "iconic" || str_ne before "withdrawn" then
         wm Tk_withdraw "withdrawn"       (* super().withdraw(): hide window *)
       else ret tt
     else
       wm Tk_withdraw "withdrawn" ;;
       super Tk_update) ;;
    let value :=
      if String.eqb (lower color_mode) "dark" then Some 1
      else if String.eqb (lower color_mode) "light" then Some 0
      else None in
    match value with
    | None => ret tt                       (* return *)
    | Some value =>
        try_except
          (id <- ask Tk_winfo_id wm_id ;;
           hwnd <- native (GetParent id) (fun h => get_parent h id) ;;
           (* try with DWMWA_USE_IMMERSIVE_DARK_MODE *)
           rc <- native (DwmSetWindowAttribute hwnd DWMWA_USE_IMMERSIVE_DARK_MODE value)
                        (fun h => dwm_set_window_attribute h hwnd
                                    DWMWA_USE_IMMERSIVE_DARK_MODE value) ;;
           if negb (rc =? 0) then
             (* try with DWMWA_USE_IMMERSIVE_DARK_MODE_BEFORE_20h1 *)
             native (DwmSetWindowAttribute hwnd DWMWA_USE_IMMERSIVE_DARK_MODE_BEFORE_20H1 value)
                    (fun h => dwm_set_window_attribute h hwnd
                                DWMWA_USE_IMMERSIVE_DARK_MODE_BEFORE_20H1 value) ;;
             ret tt
           else ret tt)
          (fun err => super Print_err) ;;
        window_exists <- attr _window_exists ;;
        if window_exists then
          before <- attr _state_before_windows_set_titlebar_color ;;
          match before with
          | Some st =>
              if String.eqb st "normal" then wm Tk_deiconify "normal"
              else if String.eqb st "iconic" then iconify
              else if String.eqb st "zoomed" then wm (Tk_state "zoomed") "zoomed"
              else wm (Tk_state st) st     (* other states *)
          | None => st <- ask Tk_state_query wm_state ;; ret tt   (* state(None) *)
          end
        else ret tt                        (* wait for update or mainloop *)
    end
  else ret tt.

Definition resizable (width height : option bool) : M unit :=
  super (Tk_resizable width height) ;;
  assign (upd_last_resizable_args (Some (width, height))) ;;
  p <- from_host platform ;;
  if startswith p "win" then
    mode <- attr _appearance_mode ;;
    if mode =? 1 then _windows_set_titlebar_color "dark"
    else _windows_set_titlebar_color "light"
  else ret tt.

Definition _set_appearance_mode (mode_string : string) : M unit :=
  (if String.eqb (lower mode_string) "dark" then assign (upd_appearance_mode 1)
   else if String.eqb (lower mode_string) "light" then assign (upd_appearance_mode 0)
   else ret tt) ;;
  p <- from_host platform ;;
  (if startswith p "win" then
     mode <- attr _appearance_mode ;;
     if mode =? 1 then _windows_set_titlebar_color "dark"
     else _windows_set_titlebar_color "light"
   else ret tt) ;;
  fg <- attr _fg_color ;;
  mode <- attr _appearance_mode ;;
  resolve <- from_host single_color ;;
  super (Tk_configure [("bg", VStr (resolve fg mode))]).

(** ** Worlds to run the methods in *)

Definition a_toolkit (state geom : string) : toolkit :=
  mk_toolkit state geom 600 500 1 (fun _ => VNone) [].

(** A Windows host whose DWM accepts the attribute. *)
Definition windows_host : host :=
  mk_host "win32" false
          (fun c mode => match c with
                         | VStr s => s
                         | VPair l d => if mode =? 1 then d else l
                         | _ => ""
                         end)
          (fun id => Some id) (fun _ _ _ => Some 0).

Definition a_world (attrs : ctk) (state geom : string) : world :=
  mk_world attrs (a_toolkit state geom) windows_host [] [].

(** The result of a method, the world it leaves, and what it asked of the
    toolkit. *)
Definition result {A : Type} (m : M A) (w : world) : exn + A := fst (m w).
Definition world_after {A : Type} (m : M A) (w : world) : world := snd (m w).
Definition calls_of {A : Type} (m : M A) (w : world) : list call := calls (snd (m w)).

(** A few properties the statements below are phrased with. *)

Fixpoint all_digits (s : string) : bool :=
  match s with
  | EmptyString => true
  | String c s' => is_digit c && all_digits s'
  end.

Definition head_is_digit (s : string) : bool :=
  match s with
  | EmptyString => false
  | String c _ => is_digit c
  end.


(** The window the examples run in: as [__init__] leaves it on a Windows host
    in light mode at the given scale, then realized; the toolkit reports the
    state "normal" and the geometry "600x500+0+0". *)
Definition realized_window (scaling : Q) : world :=
  a_world (upd_window_exists true (init_attributes 0 scaling (VStr "gray92")))
          "normal" "600x500+0+0".

(** The bounds the specification asks of the stored logical size. *)
Definition within_bounds (s : ctk) : Prop :=
  match _min_width s, _max_width s, _min_height s, _max_height s with
  | Some min_w, Some max_w, Some min_h, Some max_h =>
      min_w <= _current_width s <= max_w /\ min_h <= _current_height s <= max_h
  | _, _, _, _ => False
  end.

(** A realized window that the toolkit reports as iconified, in dark mode. *)
Definition iconified_window : world :=
  a_world (upd_window_exists true (init_attributes 1 1 (VStr "gray14")))
          "iconic" "600x500+0+0".

(** * Properties *)

(** ** Strings and decimal text *)

Lemma append_assoc (a b c : string) : (a ++ b) ++ c = a ++ (b ++ c).
Proof. induction a as [|ch a IH]; simpl; [reflexivity | now rewrite IH]. Qed.

Lemma append_nil_r (a : string) : a ++ "" = a.
Proof. induction a as [|ch a IH]; simpl; [reflexivity | now rewrite IH]. Qed.

Lemma length_append (a b : string) :
  String.length (a ++ b) = (String.length a + String.length b)%nat.
Proof. induction a as [|ch a IH]; simpl; [reflexivity | now rewrite IH]. Qed.

Lemma substring_prefix (a b : string) : substring 0 (String.length a) (a ++ b) = a.
Proof.
  induction a as [|ch a IH]; simpl.
  - now destruct b.
  - now rewrite IH.
Qed.

Lemma consumed_app (a b : string) : consumed (a ++ b) b = a.
Proof.
  unfold consumed. rewrite length_append.
  replace (String.length a + String.length b - String.length b)%nat
    with (String.length a) by lia.
  apply substring_prefix.
Qed.

Lemma consumed_all (a : string) : consumed a "" = a.
Proof. rewrite <- (append_nil_r a) at 1. apply consumed_app. Qed.

Lemma digit_char_is_digit (d : Z) : 0 <= d <= 9 -> is_digit (digit_char d) = true.
Proof.
  intros H.
  assert (C : d = 0 \/ d = 1 \/ d = 2 \/ d = 3 \/ d = 4 \/
              d = 5 \/ d = 6 \/ d = 7 \/ d = 8 \/ d = 9) by lia.
  repeat (destruct C as [C|C]; [subst d; reflexivity|]). subst d; reflexivity.
Qed.

Lemma digit_val_char (d : Z) : 0 <= d <= 9 -> digit_val (digit_char d) = d.
Proof.
  intros H.
  assert (C : d = 0 \/ d = 1 \/ d = 2 \/ d = 3 \/ d = 4 \/
              d = 5 \/ d = 6 \/ d = 7 \/ d = 8 \/ d = 9) by lia.
  repeat (destruct C as [C|C]; [subst d; reflexivity|]). subst d; reflexivity.
Qed.

Lemma all_digits_app (a b : string) :
  all_digits (a ++ b) = all_digits a && all_digits b.
Proof.
  induction a as [|ch a IH]; simpl; [reflexivity|].
  now rewrite IH, andb_assoc.
Qed.

Lemma digits_val_app (a b : string) (acc : Z) :
  digits_val acc (a ++ b) = digits_val (digits_val acc a) b.
Proof. revert acc; induction a as [|ch a IH]; intros acc; simpl; [reflexivity | apply IH]. Qed.

(** The digits [str_nat_aux] puts in front of [acc]: all digits, at least
    one, and worth [n]. *)
Lemma str_nat_aux_spec (fuel : nat) :
  forall (n : Z) (acc : string),
    (0 < fuel)%nat -> 0 <= n < 2 ^ Z.of_nat fuel ->
    exists ds, str_nat_aux fuel n acc = ds ++ acc /\
               all_digits ds = true /\ ds <> "" /\ digits_val 0 ds = n.
Proof.
  induction fuel as [|fuel IH]; intros n acc Hf Hn.
  - lia.
  - cbn [str_nat_aux].
    assert (Hd : 0 <= n mod 10 <= 9) by (pose proof (Z.mod_pos_bound n 10); lia).
    destruct (n <? 10) eqn:E.
    + apply Z.ltb_lt in E.
      exists (String (digit_char (n mod 10)) "").
      cbn [append all_digits digits_val].
      rewrite digit_char_is_digit, digit_val_char by assumption.
      repeat split; try discriminate.
      rewrite Z.mod_small; lia.
    + apply Z.ltb_ge in E.
      rewrite Nat2Z.inj_succ, Z.pow_succ_r in Hn by lia.
      destruct (IH (n / 10) (String (digit_char (n mod 10)) acc)) as (ds & E1 & E2 & E3 & E4).
      { destruct fuel; [simpl in Hn|]; lia. }
      { pose proof (Z.div_mod n 10). pose proof (Z.pow_pos_nonneg 2 (Z.of_nat fuel)).
        split; [apply Z.div_pos; lia|].
        apply Z.div_lt_upper_bound; lia. }
      exists (ds ++ String (digit_char (n mod 10)) "").
      rewrite E1, append_assoc. cbn [append].
      rewrite all_digits_app, E2, digits_val_app, E4.
      cbn [append all_digits digits_val andb].
      rewrite digit_char_is_digit, digit_val_char by assumption.
      repeat split.
      * destruct ds; discriminate.
      * pose proof (Z.div_mod n 10). lia.
Qed.

Lemma str_nat_spec (n : Z) :
  0 <= n ->
  all_digits (str_nat n) = true /\ str_nat n <> "" /\ digits_val 0 (str_nat n) = n.
Proof.
  intros Hn. unfold str_nat.
  destruct (str_nat_aux_spec (S (Z.to_nat (Z.log2 n))) n "") as (ds & E1 & E2 & E3 & E4).
  - lia.
  - split; [assumption|].
    rewrite Nat2Z.inj_succ, Z2Nat.id by apply Z.log2_nonneg.
    destruct (Z.eq_dec n 0) as [->|Hz]; [reflexivity|].
    apply Z.log2_spec. lia.
  - rewrite E1, append_nil_r. auto.
Qed.

Lemma all_digits_head (s : string) :
  all_digits s = true -> s <> "" -> exists c s', s = String c s' /\ is_digit c = true.
Proof.
  destruct s as [|c s']; intros H Hne; [congruence|].
  simpl in H. apply andb_prop in H. exists c, s'. tauto.
Qed.

Lemma digit_not_sign (c : ascii) :
  is_digit c = true -> c <> "+"%char /\ c <> "-"%char /\ c <> "x"%char.
Proof. intros H; repeat split; intros ->; discriminate. Qed.

(** [int(str(n)) = n] on the naturals. *)
Lemma int_of_str_nat (n : Z) : 0 <= n -> int_of_str (str_nat n) = n.
Proof.
  intros Hn. destruct (str_nat_spec n Hn) as (Hd & Hne & Hv).
  destruct (all_digits_head _ Hd Hne) as (c & s' & E & Hc).
  rewrite E in *. destruct (digit_not_sign c Hc) as (Hp & Hm & _).
  unfold int_of_str.
  destruct c as [[] [] [] [] [] [] [] []]; try exact Hv; congruence.
Qed.

(** [int(str(z)) = z] on every integer. *)
Lemma int_of_str_int (z : Z) : int_of_str (str_int z) = z.
Proof.
  unfold str_int. destruct (z <? 0) eqn:E.
  - apply Z.ltb_lt in E. simpl.
    destruct (str_nat_spec (- z)) as (_ & _ & Hv); [lia|]. rewrite Hv. lia.
  - apply Z.ltb_ge in E. now apply int_of_str_nat.
Qed.

(** ** The matcher on the geometry pattern *)

Lemma re_search_of_match (r : regex) (s : string) (c : captures) :
  re_match r s = Some c -> re_search r s = Some c.
Proof. intros H. destruct s; simpl; now rewrite H. Qed.

Lemma first_some {A : Type} (m alt : option A) (x : A) :
  m = Some x -> match m with Some y => Some y | None => alt end = Some x.
Proof. now intros ->. Qed.

(** A greedy run of digits stops where the digits stop, when what follows
    matches from there. *)
Lemma plus_digits {A : Type} (ds rest : string) (k : string -> option A) (x : A) :
  all_digits ds = true -> ds <> "" -> head_is_digit rest = false ->
  k rest = Some x ->
  plus_from CDigit (ds ++ rest) k = Some x.
Proof.
  intros Hd Hne Hr Hk. induction ds as [|c ds IH]; [congruence|].
  cbn [all_digits] in Hd. apply andb_prop in Hd as [Hc Hd].
  cbn [append plus_from in_class]. rewrite Hc.
  destruct ds as [|c' ds'].
  - cbn [append]. destruct rest as [|c' rest'].
    + simpl. exact Hk.
    + cbn [head_is_digit] in Hr. cbn [plus_from in_class]. rewrite Hr. exact Hk.
  - rewrite IH; [reflexivity | assumption | discriminate].
Qed.


Lemma plus_no_digit {A : Type} (s : string) (k : string -> option A) :
  head_is_digit s = false -> plus_from CDigit s k = None.
Proof. destruct s as [|c s']; [reflexivity|]. cbn. now intros ->. Qed.

Lemma digit_not_in_signs (c : ascii) :
  is_digit c = true -> in_class (CSet ["+"; "-"]%char) c = false.
Proof.
  intros H. destruct (digit_not_sign c H) as (Hp & Hm & _).
  cbn [in_class existsb].
  apply Ascii.eqb_neq in Hp, Hm. now rewrite Hp, Hm.
Qed.

(** [[+-]{0,1}\d+] reads a printed integer whole. *)
Lemma signed_number_int {A : Type} (z : Z) (rest : string) (c : captures)
      (k : string -> captures -> option A) (x : A) :
  head_is_digit rest = false ->
  k rest c = Some x ->
  rmatch signed_number (str_int z ++ rest) c k = Some x.
Proof.
  intros Hr Hk. unfold signed_number, str_int. cbn [rmatch].
  destruct (z <? 0) eqn:E.
  - apply Z.ltb_lt in E.
    destruct (str_nat_spec (- z)) as (Hd & Hne & _); [lia|].
    cbn [append]. cbn. apply first_some. now apply plus_digits.
  - apply Z.ltb_ge in E.
    destruct (str_nat_spec z E) as (Hd & Hne & _).
    destruct (all_digits_head _ Hd Hne) as (c0 & s' & E0 & Hc).
    pose proof (digit_not_in_signs c0 Hc) as Hs.
    rewrite E0 in *. cbn [append]. rewrite Hs.
    change (String c0 (s' ++ rest)) with (String c0 s' ++ rest).
    now apply plus_digits.
Qed.

(** The position part reads "+{x}+{y}" and binds groups 5 and 6 to the two
    printed integers. *)
Lemma position_part_ints {A : Type} (x y : Z) (rest : string) (c : captures)
      (k : string -> captures -> option A) (r : A) :
  head_is_digit rest = false ->
  k rest ((4%nat, "+" ++ str_int x ++ "+" ++ str_int y)
            :: (6%nat, str_int y) :: (5%nat, str_int x) :: c) = Some r ->
  rmatch position_part ("+" ++ str_int x ++ "+" ++ str_int y ++ rest) c k = Some r.
Proof.
  intros Hr Hk. unfold position_part. cbn [rmatch append].
  cbn [in_class Ascii.eqb Bool.eqb]. cbn match.
  apply first_some. apply signed_number_int; [reflexivity|].
  cbn [in_class Ascii.eqb Bool.eqb]. cbn match.
  apply first_some. apply signed_number_int; [assumption|].
  rewrite !consumed_app.
  replace (String "+" (str_int x ++ String "+" (str_int y ++ rest)))
    with (("+" ++ str_int x ++ "+" ++ str_int y) ++ rest)
    by (cbn [append]; now rewrite append_assoc).
  now rewrite consumed_app.
Qed.

(** The size part reads "{digits}x{digits}" and binds groups 2 and 3 to the
    two runs of digits. *)
Lemma size_part_digits {A : Type} (W H rest : string) (c : captures)
      (k : string -> captures -> option A) (r : A) :
  all_digits W = true -> W <> "" -> all_digits H = true -> H <> "" ->
  head_is_digit rest = false ->
  k rest ((1%nat, W ++ "x" ++ H) :: (3%nat, H) :: (2%nat, W) :: c) = Some r ->
  rmatch size_part (W ++ "x" ++ H ++ rest) c k = Some r.
Proof.
  intros HW HWne HH HHne Hr Hk. unfold size_part. cbn [rmatch].
  apply plus_digits; [assumption | assumption | reflexivity |].
  cbn [append in_class Ascii.eqb Bool.eqb]. cbn match.
  apply plus_digits; [assumption | assumption | assumption |].
  rewrite !consumed_app.
  replace (W ++ String "x" (H ++ rest)) with ((W ++ "x" ++ H) ++ rest)
    by (rewrite append_assoc; reflexivity).
  now rewrite consumed_app.
Qed.

Lemma position_part_empty {A : Type} (c : captures)
      (k : string -> captures -> option A) :
  rmatch position_part "" c k = None.
Proof. reflexivity. Qed.

(** *** What the parser returns on the well-formed shapes *)

Lemma parse_size_digits (W H : string) :
  all_digits W = true -> W <> "" -> all_digits H = true -> H <> "" ->
  _parse_geometry_string (W ++ "x" ++ H) =
  inr (Some (int_of_str W), Some (int_of_str H), None, None).
Proof.
  intros HW HWne HH HHne. unfold _parse_geometry_string.
  rewrite (re_search_of_match _ _ [(1%nat, W ++ "x" ++ H); (3%nat, H); (2%nat, W)]);
    [reflexivity|].
  unfold re_match, geometry_pattern. cbn [rmatch]. apply first_some.
  rewrite <- (append_nil_r H) at 1.
  apply size_part_digits; try assumption; reflexivity.
Qed.

Lemma parse_size (w h : Z) :
  0 <= w -> 0 <= h ->
  _parse_geometry_string (str_int w ++ "x" ++ str_int h) =
  inr (Some w, Some h, None, None).
Proof.
  intros Hw Hh. unfold str_int.
  destruct (Z.ltb_spec w 0); [lia|]. destruct (Z.ltb_spec h 0); [lia|].
  destruct (str_nat_spec w Hw) as (? & ? & _).
  destruct (str_nat_spec h Hh) as (? & ? & _).
  rewrite parse_size_digits by assumption.
  now rewrite !int_of_str_nat.
Qed.

Lemma parse_position (x y : Z) :
  _parse_geometry_string ("+" ++ str_int x ++ "+" ++ str_int y) =
  inr (None, None, Some x, Some y).
Proof.
  unfold _parse_geometry_string.
  rewrite (re_search_of_match _ _
             [(4%nat, "+" ++ str_int x ++ "+" ++ str_int y);
              (6%nat, str_int y); (5%nat, str_int x)]).
  - cbn [group Nat.eqb option_map]. now rewrite !int_of_str_int.
  - unfold re_match, geometry_pattern. cbn [rmatch].
    replace (rmatch size_part ("+" ++ str_int x ++ "+" ++ str_int y) [] _)
      with (@None captures) by reflexivity.
    apply first_some.
    rewrite <- (append_nil_r (str_int y)) at 1.
    apply position_part_ints; reflexivity.
Qed.

Lemma parse_size_position (w h x y : Z) :
  0 <= w -> 0 <= h ->
  _parse_geometry_string
    (str_int w ++ "x" ++ str_int h ++ "+" ++ str_int x ++ "+" ++ str_int y) =
  inr (Some w, Some h, Some x, Some y).
Proof.
  intros Hw Hh. unfold _parse_geometry_string.
  rewrite (re_search_of_match _ _
             [(4%nat, "+" ++ str_int x ++ "+" ++ str_int y);
              (6%nat, str_int y); (5%nat, str_int x);
              (1%nat, str_int w ++ "x" ++ str_int h);
              (3%nat, str_int h); (2%nat, str_int w)]).
  - cbn [group Nat.eqb option_map]. now rewrite !int_of_str_int.
  - unfold re_match, geometry_pattern. cbn [rmatch]. apply first_some.
    assert (Ew : str_int w = str_nat w) by (unfold str_int; destruct (Z.ltb_spec w 0); [lia|reflexivity]).
    assert (Eh : str_int h = str_nat h) by (unfold str_int; destruct (Z.ltb_spec h 0); [lia|reflexivity]).
    destruct (str_nat_spec w Hw) as (? & ? & _).
    destruct (str_nat_spec h Hh) as (? & ? & _).
    apply size_part_digits; try (rewrite ?Ew, ?Eh; assumption); [reflexivity|].
    apply first_some.
    rewrite <- (append_nil_r (str_int y)) at 1.
    apply position_part_ints; reflexivity.
Qed.

(** ** Rounding *)

(** [round] is within one half of its argument. *)
Lemma py_round_bound (q : Q) :
  - Zpos (Qden q) <= 2 * (py_round q * Zpos (Qden q) - Qnum q) <= Zpos (Qden q).
Proof.
  unfold py_round.
  pose proof (Z.div_mod (Qnum q) (Zpos (Qden q)) ltac:(lia)) as E.
  pose proof (Z.mod_pos_bound (Qnum q) (Zpos (Qden q)) ltac:(lia)) as B.
  set (f := Qnum q / Zpos (Qden q)) in *.
  set (m := Qnum q mod Zpos (Qden q)) in *.
  destruct (Z.ltb_spec (2 * m) (Zpos (Qden q))); [nia|].
  destruct (Z.ltb_spec (Zpos (Qden q)) (2 * m)); [nia|].
  destruct (Z.even f); nia.
Qed.



(** Scaling by [s >= 1] and back is exact. *)
Lemma round_mul_div_exact (w : Z) (s : Q) :
  (1 <= s)%Q ->
  py_round (inject_Z (py_round (inject_Z w * s)) / s) = w.
Proof.
  intros Hs. destruct s as [a b]. unfold Qle in Hs. cbn in Hs.
  destruct a as [|a|a]; try lia.
  pose proof (py_round_bound (inject_Z w * (Zpos a # b))) as H1.
  set (p := py_round (inject_Z w * (Zpos a # b))) in *.
  pose proof (py_round_bound (inject_Z p / (Zpos a # b))) as H2.
  set (r := py_round (inject_Z p / (Zpos a # b))) in *.
  cbn [Qnum Qden Qmult Qdiv Qinv inject_Z Pos.mul] in H1, H2.
  destruct (Z.eq_dec (Zpos a) (Zpos b)) as [E|E].
  - rewrite E in *. assert (p = w) by nia. subst p.
    assert (r - w < 1) by nia. assert (-1 < r - w) by nia. lia.
  - assert (r - w < 1) by nia. assert (-1 < r - w) by nia. lia.
Qed.

(** The two parsing examples of the specification. *)
Example parse_size_and_position :
  _parse_geometry_string "300x200+10+10" = inr (Some 300, Some 200, Some 10, Some 10).
Proof. reflexivity. Qed.

Example parse_size_only :
  _parse_geometry_string "300x200" = inr (Some 300, Some 200, None, None).
Proof. reflexivity. Qed.

(** Where the pattern gives up part of a number to find a second one. *)
Example parse_single_number :
  _parse_geometry_string "100" = inr (None, None, Some 10, Some 0).
Proof. reflexivity. Qed.

(** ** The geometry codec on the well-formed shapes *)

(** Running a method: unfold the monad, nothing else. *)
Ltac run :=
  cbn [bind ret raise lift attr assign super ask wm from_host fst snd
       is_none andb orb negb py_mul py_div py_lt py_gt py_min py_max
       result world_after calls_of].



Lemma apply_position (wd : world) (x y : Z) :
  _apply_geometry_scaling ("+" ++ str_int x ++ "+" ++ str_int y) wd =
  (inr ("+" ++ str_int x ++ "+" ++ str_int y), wd).
Proof. unfold _apply_geometry_scaling. rewrite parse_position. reflexivity. Qed.




(** ** C2: size to physical form and back *)




(** The codec functions only read the window. *)
Lemma apply_geometry_scaling_reads (gs : string) (wd : world) :
  snd (_apply_geometry_scaling gs wd) = wd.
Proof.
  unfold _apply_geometry_scaling.
  destruct (_parse_geometry_string gs) as [e|[[[[w|] [h|]] [x|]] [y|]]]; reflexivity.
Qed.

Lemma reverse_geometry_scaling_reads (gs : string) (wd : world) :
  snd (_reverse_geometry_scaling gs wd) = wd.
Proof.
  unfold _reverse_geometry_scaling.
  destruct (_parse_geometry_string gs) as [e|[[[[w|] [h|]] [x|]] [y|]]]; run;
    try reflexivity;
    destruct (Qeq_bool (_window_scaling (self wd)) 0); reflexivity.
Qed.


(** ** C3: position-only geometry strings *)

(** C3, counterexample.  The position-only string "-100-50" does not come
    back as it went in: the offsets are printed after a "+" each. *)
Lemma apply_geometry_scaling_respells_negative_offsets :
  result (_apply_geometry_scaling "-100-50") (realized_window 2) = inr "+-100+-50"
  /\ result (_apply_geometry_scaling "-100-50") (realized_window 2) <> inr "-100-50".
Proof. split; [reflexivity | discriminate]. Qed.

(** C3, amended.  Whatever the scale: a position-only geometry string
    written "+{x}+{y}", x and y integers in decimal (a negative offset reads
    "+-100+-50"), is returned unchanged by [_apply_geometry_scaling]; and any
    string in which the parser finds only a position, with offsets x and y,
    is returned as "+{x}+{y}", the offsets keeping value and sign. *)
Theorem apply_geometry_scaling_position_only (wd : world) :
  (forall x y : Z,
      result (_apply_geometry_scaling ("+" ++ str_int x ++ "+" ++ str_int y)) wd
      = inr ("+" ++ str_int x ++ "+" ++ str_int y))
  /\ (forall (gs : string) (x y : Z),
         _parse_geometry_string gs = inr (None, None, Some x, Some y) ->
         result (_apply_geometry_scaling gs) wd
         = inr ("+" ++ str_int x ++ "+" ++ str_int y)).
Proof.
  split.
  - intros x y. unfold result. now rewrite apply_position.
  - intros gs x y E. unfold result, _apply_geometry_scaling. now rewrite E.
Qed.

Lemma apply_geometry_scaling_position_only_witness :
  _parse_geometry_string "-100-50" = inr (None, None, Some (-100), Some (-50))
  /\ result (_apply_geometry_scaling "-100-50") (realized_window 2) = inr "+-100+-50".
Proof.
  split.
  - reflexivity.
  - apply (proj2 (apply_geometry_scaling_position_only (realized_window 2))
             "-100-50" (-100) (-50)).
    reflexivity.
Defined.

(** ** C5: strings the parser cannot read in full *)




(** ** C6: the query form of geometry *)




(** ** C4: the stored size and its bounds *)

(** C4, counterexample.  From the window as constructed, a maximum of
    300x300 and then a minimum of 400x400: the stored size follows the
    minimum to 400x400 and is above the maximum. *)
Lemma minsize_above_maxsize_breaks_bounds :
  within_bounds (self (realized_window 1))
  /\ ~ within_bounds
       (self (world_after (maxsize (Some 300) (Some 300) ;; minsize (Some 400) (Some 400))
                          (realized_window 1))).
Proof.
  split.
  - cbv. repeat split; discriminate.
  - cbv. intros [[_ H] _]. now apply H.
Qed.

(** C4, amended.  From a state whose stored size is within its bounds:
    [geometry] leaves it within them, whatever its argument; [minsize(w, h)]
    does when w and h are not above the current maximum; [maxsize(w, h)]
    does when w and h are not below the current minimum. *)
Theorem size_stays_within_bounds (wd : world) :
  within_bounds (self wd) ->
  (forall gs : option string, within_bounds (self (world_after (geometry gs) wd)))
  /\ (forall w h max_w max_h : Z,
         _max_width (self wd) = Some max_w -> _max_height (self wd) = Some max_h ->
         w <= max_w -> h <= max_h ->
         within_bounds (self (world_after (minsize (Some w) (Some h)) wd)))
  /\ (forall w h min_w min_h : Z,
         _min_width (self wd) = Some min_w -> _min_height (self wd) = Some min_h ->
         min_w <= w -> min_h <= h ->
         within_bounds (self (world_after (maxsize (Some w) (Some h)) wd))).
Proof.
  intros Hb. destruct wd as [s t o cs p].
  destruct s as [am sc cw ch mnw mnh mxw mxh lra fg sb we wc ic bl].
  unfold within_bounds in Hb. cbn in Hb.
  destruct mnw as [mnw|]; [|contradiction].
  destruct mxw as [mxw|]; [|contradiction].
  destruct mnh as [mnh|]; [|contradiction].
  destruct mxh as [mxh|]; [|contradiction].
  repeat split.
  - intros [gs|]; unfold world_after, geometry.
    + unfold bind at 1.
      pose proof (apply_geometry_scaling_reads gs
                    (mk_world (mk_ctk am sc cw ch (Some mnw) (Some mnh) (Some mxw) (Some mxh)
                                      lra fg sb we wc ic bl) t o cs p)) as R.
      destruct (_apply_geometry_scaling gs _) as [[e|scaled] wd']; cbn [snd] in R; subst wd'.
      * unfold within_bounds; cbn. lia.
      * unfold bind, super, lift.
        destruct (_parse_geometry_string gs) as [e|[[[[w|] [h|]] x] y]];
          unfold within_bounds; cbn; lia.
    + unfold bind, ask.
      match goal with
      | |- context [_reverse_geometry_scaling ?a ?b] =>
          pose proof (reverse_geometry_scaling_reads a b) as R;
          destruct (_reverse_geometry_scaling a b) as [[e|l] wd']
      end.
      cbn [snd] in R; subst wd'; unfold within_bounds; cbn; lia.
      cbn [snd] in R; subst wd'; unfold within_bounds; cbn; lia.
  - intros w h max_w max_h Ew Eh Hw Hh. cbv in Ew, Eh.
    injection Ew as <-. injection Eh as <-.
    unfold within_bounds, world_after. cbv -[Z.ltb Z.le py_int Qmult inject_Z].
    destruct (Z.ltb_spec cw w); destruct (Z.ltb_spec ch h); lia.
  - intros w h min_w min_h Ew Eh Hw Hh. cbv in Ew, Eh.
    injection Ew as <-. injection Eh as <-.
    unfold within_bounds, world_after. cbv -[Z.ltb Z.le py_int Qmult inject_Z].
    destruct (Z.ltb_spec w cw); destruct (Z.ltb_spec h ch); lia.
Qed.

Lemma size_stays_within_bounds_witness :
  within_bounds (self (realized_window 1))
  /\ within_bounds (self (world_after (geometry (Some "2000000x10")) (realized_window 1)))
  /\ within_bounds (self (world_after (minsize (Some 700) (Some 200)) (realized_window 1)))
  /\ within_bounds (self (world_after (maxsize (Some 300) (Some 800)) (realized_window 1))).
Proof.
  assert (H : within_bounds (self (realized_window 1))).
  { unfold within_bounds. simpl. lia. }
  split; [exact H|].
  destruct (size_stays_within_bounds (realized_window 1) H) as (Hg & Hmin & Hmax).
  split; [apply Hg|].
  split.
  - apply (Hmin 700 200 1000000 1000000); [reflexivity | reflexivity | lia | lia].
  - apply (Hmax 300 800 0 0); [reflexivity | reflexivity | lia | lia].
Defined.

(** ** Pixel counts: [int(value * scaling)] *)


(** A whole product is passed as it is. *)
Lemma py_int_whole (v k : Z) : py_int (inject_Z v * inject_Z k) = v * k.
Proof. unfold py_int. cbn [Qnum Qden Qmult inject_Z Pos.mul]. apply Z.quot_1_r. Qed.

(** ** C7: a minimum above the current size *)



(** What [_set_scaling] does, in one equation. *)
Lemma set_scaling_runs (wd : world) (s : Q) :
  let w := Some (py_int (inject_Z (_current_width (self wd)) * s)) in
  let h := Some (py_int (inject_Z (_current_height (self wd)) * s)) in
  _set_scaling s s s wd
  = (inr tt,
     mk_world (upd_block_update_dimensions_event true (upd_window_scaling s (self wd)))
              (tk wd) (os wd)
              (((((calls wd ++ [Tk_minsize w h]) ++ [Tk_maxsize w h])
                 ++ [Tk_geometry (str_opt w ++ "x" ++ str_opt h)])
                ++ [Tk_after 400 Cb_set_scaled_min_max])
               ++ [Tk_after 100 Cb_set_block_update_dimensions_event_false])%list
              ((pending wd ++ [(400, Cb_set_scaled_min_max)])
               ++ [(100, Cb_set_block_update_dimensions_event_false)])%list).
Proof. reflexivity. Qed.

(** What the event loop does with the two timers of [_set_scaling]: the
    shorter one first. *)
Lemma run_pending_corrects (w : world) (min_w min_h max_w max_h : Z) :
  pending w = [(400, Cb_set_scaled_min_max);
               (100, Cb_set_block_update_dimensions_event_false)] ->
  _min_width (self w) = Some min_w -> _min_height (self w) = Some min_h ->
  _max_width (self w) = Some max_w -> _max_height (self w) = Some max_h ->
  run_pending w
  = (inr tt,
     mk_world (upd_block_update_dimensions_event false (self w)) (tk w) (os w)
              ((calls w
                ++ [Tk_minsize (Some (py_int (inject_Z min_w * _window_scaling (self w))))
                               (Some (py_int (inject_Z min_h * _window_scaling (self w))))])
               ++ [Tk_maxsize (Some (py_int (inject_Z max_w * _window_scaling (self w))))
                              (Some (py_int (inject_Z max_h * _window_scaling (self w))))])%list
              []).
Proof.
  destruct w as [s t o cs p].
  destruct s as [am sc cw ch mnw mnh mxw mxh lra fg sb we wc ic bl].
  cbn [pending self _min_width _min_height _max_width _max_height].
  intros -> -> -> -> ->. reflexivity.
Qed.

(** ** C8: a change of scale *)

(** C8.  With the stored logical size (600, 500), a change of scale to 2.0
    forces the toolkit's minsize, maxsize and geometry to 1200x1000, the
    stored size times the new scale, and blocks the dimension update; the
    stored logical size and bounds do not change.  When the two timers it
    scheduled have fired, the toolkit's minsize and maxsize are the stored
    logical bounds times 2 and the block is released. *)
Theorem set_scaling_forces_then_corrects (wd : world) (min_w min_h max_w max_h : Z) :
  _current_width (self wd) = 600 -> _current_height (self wd) = 500 ->
  _min_width (self wd) = Some min_w -> _min_height (self wd) = Some min_h ->
  _max_width (self wd) = Some max_w -> _max_height (self wd) = Some max_h ->
  pending wd = [] ->
  let forced := world_after (_set_scaling 2 2 2) wd in
  let corrected := world_after run_pending forced in
  calls forced
  = (calls wd ++ [Tk_minsize (Some 1200) (Some 1000);
                  Tk_maxsize (Some 1200) (Some 1000);
                  Tk_geometry "1200x1000";
                  Tk_after 400 Cb_set_scaled_min_max;
                  Tk_after 100 Cb_set_block_update_dimensions_event_false])%list
  /\ _block_update_dimensions_event (self forced) = true
  /\ (_current_width (self forced), _current_height (self forced)) = (600, 500)
  /\ (_min_width (self forced), _min_height (self forced)) = (Some min_w, Some min_h)
  /\ (_max_width (self forced), _max_height (self forced)) = (Some max_w, Some max_h)
  /\ calls corrected
     = (calls forced ++ [Tk_minsize (Some (min_w * 2)) (Some (min_h * 2));
                         Tk_maxsize (Some (max_w * 2)) (Some (max_h * 2))])%list
  /\ _block_update_dimensions_event (self corrected) = false
  /\ pending corrected = [].
Proof.
  intros Hcw Hch Hmnw Hmnh Hmxw Hmxh Hp forced corrected.
  subst forced corrected. unfold world_after.
  rewrite set_scaling_runs. cbn [snd].
  rewrite (run_pending_corrects _ min_w min_h max_w max_h);
    [| rewrite Hp; reflexivity | assumption | assumption | assumption | assumption].
  cbn [snd calls pending self _block_update_dimensions_event _window_scaling
       _current_width _current_height _min_width _min_height _max_width _max_height
       upd_block_update_dimensions_event upd_window_scaling].
  rewrite Hcw, Hch, Hmnw, Hmnh, Hmxw, Hmxh.
  change (2 # 1)%Q with (inject_Z 2). rewrite !py_int_whole.
  rewrite <- !app_assoc.
  repeat split.
Qed.

Lemma set_scaling_forces_then_corrects_witness :
  let wd := realized_window 1 in
  let forced := world_after (_set_scaling 2 2 2) wd in
  let corrected := world_after run_pending forced in
  calls forced
  = [Tk_minsize (Some 1200) (Some 1000);
     Tk_maxsize (Some 1200) (Some 1000);
     Tk_geometry "1200x1000";
     Tk_after 400 Cb_set_scaled_min_max;
     Tk_after 100 Cb_set_block_update_dimensions_event_false]
  /\ calls corrected
     = (calls forced ++ [Tk_minsize (Some 0) (Some 0);
                         Tk_maxsize (Some 2000000) (Some 2000000)])%list.
Proof.
  intros wd forced corrected.
  pose proof (set_scaling_forces_then_corrects wd 0 0 1000000 1000000
                eq_refl eq_refl eq_refl eq_refl eq_refl eq_refl eq_refl) as H.
  cbv zeta in H. destruct H as (Hf & _ & _ & _ & _ & Hc & _).
  split; [exact Hf | exact Hc].
Defined.

(** ** [configure] and [cget] *)

Lemma kwargs_remove_absent (key : string) (kw : kwargs) :
  kwargs_get key kw = None -> kwargs_remove key kw = kw.
Proof.
  induction kw as [|[k v] kw IH]; [reflexivity|].
  cbn [kwargs_get kwargs_remove filter fst].
  destruct (String.eqb k key); [discriminate|].
  intros H. cbn [negb]. f_equal. now apply IH.
Qed.

(** The loop over the children raises nothing and only adds calls. *)
Lemma configure_children_runs (cs : list child) (fg : pyval) :
  forall (index : nat) (w : world),
  exists cs' extra,
    configure_children index cs fg w
    = (inr cs', mk_world (self w) (tk w) (os w) (calls w ++ extra)%list (pending w)).
Proof.
  induction cs as [|c cs IH]; intros index w.
  - exists [], []. cbn [configure_children ret]. rewrite app_nil_r. now destruct w.
  - cbn [configure_children]. unfold bind at 1. cbn [super].
    unfold bind at 1.
    destruct (IH (S index) (record_call (Child_configure index [("bg_color", fg)]) w))
      as (cs' & extra & E).
    rewrite E. cbn [ret record_call self tk os calls pending].
    eexists; eexists. rewrite <- app_assoc. reflexivity.
Qed.

(** The fg_color block raises nothing, returns the options without
    fg_color, stores the colour when there is one, and only adds calls. *)
Lemma configure_fg_color_runs (kw : kwargs) (w : world) :
  exists w1 extra,
    configure_fg_color kw w = (inr (kwargs_remove "fg_color" kw), w1)
    /\ calls w1 = (calls w ++ extra)%list
    /\ _fg_color (self w1) = match kwargs_get "fg_color" kw with
                             | Some v => v
                             | None => _fg_color (self w)
                             end.
Proof.
  unfold configure_fg_color.
  destruct (kwargs_get "fg_color" kw) as [v|] eqn:E.
  - unfold bind at 1. cbn [assign]. unfold bind at 1. cbn [attr].
    unfold bind at 1. cbn [attr]. unfold bind at 1. cbn [from_host].
    unfold bind at 1. cbn [super]. unfold bind at 1. cbn [ask].
    unfold bind at 1.
    match goal with
    | |- context [configure_children 0 ?cs ?fg ?w0] =>
        destruct (configure_children_runs cs fg 0%nat w0) as (cs' & extra & R);
        rewrite R
    end.
    unfold bind, ret.
    eexists; eexists. split; [reflexivity|].
    cbn [set_children record_call set_self self tk os calls pending
         upd_fg_color _fg_color].
    split; [|reflexivity].
    rewrite <- !app_assoc. reflexivity.
  - exists w, []. rewrite kwargs_remove_absent by assumption.
    rewrite app_nil_r. repeat split.
Qed.

Lemma in_filter_keys (f : string -> bool) (key : string) (kw : kwargs) :
  In key (kwargs_keys (filter (fun kv => f (fst kv)) kw))
  <-> In key (kwargs_keys kw) /\ f key = true.
Proof.
  unfold kwargs_keys. rewrite !in_map_iff. split.
  - intros ([k v] & <- & H). apply filter_In in H as [H1 H2]. cbn [fst] in *.
    split; [|assumption]. exists (k, v). auto.
  - intros (([k v] & <- & H1) & H2). exists (k, v).
    split; [reflexivity|]. apply filter_In. auto.
Qed.


(** ** C9: an unrecognized option *)



(** Options the toolkit recognizes, with or without fg_color, raise
    nothing. *)
Lemma configure_accepts_recognized_options (wd : world) (kw : kwargs) :
  (forall k, In k (kwargs_keys kw) ->
             k = "fg_color" \/ key_in k _valid_tk_configure_arguments = true) ->
  result (configure kw) wd = inr tt.
Proof.
  intros Hall.
  destruct (configure_fg_color_runs kw wd) as (w1 & extra & E & _ & _).
  unfold result, configure. unfold bind at 1. rewrite E.
  unfold pop_from_dict_by_set.
  assert (Hrest : filter (fun kv => negb (key_in (fst kv) _valid_tk_configure_arguments))
                         (kwargs_remove "fg_color" kw) = []).
  { destruct (filter _ (kwargs_remove "fg_color" kw)) as [|[k v] l] eqn:F; [reflexivity|].
    assert (H : In k (kwargs_keys ((k, v) :: l))) by (left; reflexivity).
    rewrite <- F in H. unfold kwargs_remove in H.
    apply (in_filter_keys (fun k => negb (key_in k _valid_tk_configure_arguments))) in H.
    destruct H as [H1 H2].
    apply (in_filter_keys (fun k => negb (String.eqb k "fg_color"))) in H1.
    destruct H1 as [H0 H1]. apply negb_true_iff in H1, H2. apply String.eqb_neq in H1.
    destruct (Hall k H0); congruence. }
  rewrite Hrest. reflexivity.
Qed.

(** ** C10: fg_color is read back as it was set *)

(** C10.  For every colour value c, after [configure] has been called with
    fg_color = c (alone or with other options, and whether or not the call
    then fails on another option), [cget("fg_color")] returns exactly c, the
    stored value, and leaves the world as it is: no call reaches the
    toolkit. *)
Theorem cget_fg_color_after_configure (wd : world) (kw : kwargs) (c : pyval) :
  kwargs_get "fg_color" kw = Some c ->
  let wd' := world_after (configure kw) wd in
  cget "fg_color" wd' = (inr c, wd')
  /\ calls_of (cget "fg_color") wd' = calls wd'.
Proof.
  intros Hc wd'.
  assert (H : _fg_color (self wd') = c).
  { subst wd'. unfold world_after, configure.
    destruct (configure_fg_color_runs kw wd) as (w1 & extra & E & _ & Hfg).
    rewrite Hc in Hfg. unfold bind at 1. rewrite E.
    destruct (pop_from_dict_by_set _ _) as [recognized rest].
    destruct rest as [|kv rest]; cbn; exact Hfg. }
  clearbody wd'. unfold calls_of, cget.
  change ("fg_color" =? "fg_color")%string with true. unfold attr. cbn [snd]. rewrite H.
  split; reflexivity.
Qed.

Lemma cget_fg_color_after_configure_witness :
  let wd' := world_after (configure [("fg_color", VPair "gray92" "gray14")])
                         (realized_window 1) in
  cget "fg_color" wd' = (inr (VPair "gray92" "gray14"), wd')
  /\ calls_of (cget "fg_color") wd' = calls wd'.
Proof.
  apply (cget_fg_color_after_configure (realized_window 1)
           [("fg_color", VPair "gray92" "gray14")] (VPair "gray92" "gray14")).
  reflexivity.
Defined.

(** ** C1: the titlebar colour of an iconified window *)

(** The guard in front of the withdraw,
    [state != "iconic" or state != "withdrawn"], holds of every state. *)
Lemma withdraw_guard_always_holds (st : string) :
  str_ne (Some st) "iconic" || str_ne (Some st) "withdrawn" = true.
Proof.
  cbn [str_ne]. destruct (String.eqb_spec st "iconic") as [->|H]; reflexivity.
Qed.

(** C1, the code at the failing input.  On a realized window whose state is
    "iconic", [_windows_set_titlebar_color("dark")] withdraws the window
    before it sets the DWM attribute; after it, the restore step iconifies
    the window again. *)
Theorem titlebar_color_withdraws_iconified_window :
  _state_before_windows_set_titlebar_color
    (self (world_after (_windows_set_titlebar_color "dark") iconified_window))
  = Some "iconic"
  /\ calls_of (_windows_set_titlebar_color "dark") iconified_window
     = [Tk_state_query; Tk_withdraw; Tk_winfo_id; GetParent 1;
        DwmSetWindowAttribute 1 DWMWA_USE_IMMERSIVE_DARK_MODE 1; Tk_iconify]
  /\ wm_state (tk (world_after (_windows_set_titlebar_color "dark") iconified_window))
     = "iconic".
Proof. repeat split. Qed.

(** On every realized window of a Windows host with the header manipulation
    active, whatever its state and the colour mode asked for, the first two
    calls are the state query and the withdraw. *)
Lemma titlebar_color_always_withdraws (wd : world) (color_mode : string) :
  startswith (platform (os wd)) "win" = true ->
  deactivate_windows_window_header_manipulation (os wd) = false ->
  _window_exists (self wd) = true ->
  exists later,
    calls_of (_windows_set_titlebar_color color_mode) wd
    = (calls wd ++ Tk_state_query :: Tk_withdraw :: later)%list.
Proof.
  intros Hp Hd He.
  destruct wd as [s t o cs p].
  destruct s as [am sc cw ch mnw mnh mxw mxh lra fg sb we wc ic bl].
  destruct o as [pf de sco gp dwm]. destruct t as [st ge ww wh wid cg chs].
  cbn [os self platform deactivate_windows_window_header_manipulation _window_exists]
    in Hp, Hd, He. subst de we.
  unfold calls_of.
  cbv -[String.eqb lower app Z.eqb startswith str_ne orb].
  rewrite Hp, withdraw_guard_always_holds.
  repeat (cbv -[String.eqb lower app Z.eqb];
          match goal with
          | |- context [String.eqb ?a ?b] => destruct (String.eqb a b)
          | |- context [gp ?a] => destruct (gp a)
          | |- context [dwm ?a ?b ?c] => destruct (dwm a b c)
          | |- context [Z.eqb ?a ?b] => destruct (Z.eqb a b)
          end);
    cbv -[app]; rewrite <- ?app_assoc; cbn [app]; eexists; reflexivity.
Qed.

(** * Further properties of the code *)

(** ** What the parser can return *)















(** ** Geometry strings as the code prints them *)

(** X3.  Reading back what was printed: for all integers w, h >= 0 and x, y,
    the parser recovers the numbers from "{w}x{h}", from "+{x}+{y}" and from
    "{w}x{h}+{x}+{y}", negative offsets included. *)
Theorem parse_printed_geometry (w h x y : Z) :
  0 <= w -> 0 <= h ->
  _parse_geometry_string (str_int w ++ "x" ++ str_int h)
  = inr (Some w, Some h, None, None)
  /\ _parse_geometry_string ("+" ++ str_int x ++ "+" ++ str_int y)
     = inr (None, None, Some x, Some y)
  /\ _parse_geometry_string
       (str_int w ++ "x" ++ str_int h ++ "+" ++ str_int x ++ "+" ++ str_int y)
     = inr (Some w, Some h, Some x, Some y).
Proof.
  intros Hw Hh. repeat split.
  - now apply parse_size.
  - apply parse_position.
  - now apply parse_size_position.
Qed.

Lemma parse_printed_geometry_witness :
  _parse_geometry_string "1920x1080" = inr (Some 1920, Some 1080, None, None)
  /\ _parse_geometry_string "+-1920+0" = inr (None, None, Some (-1920), Some 0)
  /\ _parse_geometry_string "1920x1080+-1920+0"
     = inr (Some 1920, Some 1080, Some (-1920), Some 0).
Proof.
  apply (parse_printed_geometry 1920 1080 (-1920) 0); lia.
Defined.




(** ** The setters of size *)




(** X7.  Called without a width, as with its default arguments, [minsize]
    (and likewise [maxsize]) raises a TypeError: by then it has stored [None]
    as the bound, the stored size is as before, and the toolkit has not been
    called. *)
Theorem minsize_maxsize_without_width_raise (wd : world) (h : option Z) :
  minsize None h wd
  = (inl TypeError, set_self (fun s => upd_min_height h (upd_min_width None s)) wd)
  /\ maxsize None h wd
     = (inl TypeError, set_self (fun s => upd_max_height h (upd_max_width None s)) wd).
Proof. split; reflexivity. Qed.

(** ** Scale changes and resize events *)

Lemma py_int_monotone (a b : Z) (s : Q) :
  (0 <= s)%Q -> a <= b -> py_int (inject_Z a * s) <= py_int (inject_Z b * s).
Proof.
  intros Hs Hab. destruct s as [n d]. unfold Qle in Hs. cbn in Hs.
  unfold py_int. cbn [Qnum Qden Qmult inject_Z Pos.mul].
  apply Z.quot_le_mono; nia.
Qed.

(** X8.  The deferred correction keeps the order of the bounds: with a
    scale that is not negative and stored minima not above the stored
    maxima, [_set_scaled_min_max] raises nothing and calls the toolkit's
    minsize and then its maxsize, with a physical minimum that is not above
    the physical maximum. *)
Theorem set_scaled_min_max_keeps_order (wd : world) (min_w min_h max_w max_h : Z) :
  _min_width (self wd) = Some min_w -> _min_height (self wd) = Some min_h ->
  _max_width (self wd) = Some max_w -> _max_height (self wd) = Some max_h ->
  (0 <= _window_scaling (self wd))%Q -> min_w <= max_w -> min_h <= max_h ->
  exists a b c d,
    _set_scaled_min_max wd
    = (inr tt, mk_world (self wd) (tk wd) (os wd)
                        (calls wd ++ [Tk_minsize (Some a) (Some b);
                                      Tk_maxsize (Some c) (Some d)])%list
                        (pending wd))
    /\ a <= c /\ b <= d.
Proof.
  intros Hmnw Hmnh Hmxw Hmxh Hs Hw Hh.
  destruct wd as [s t o cs p].
  destruct s as [am sc cw ch mnw mnh mxw mxh lra fg sb we wc ic bl].
  cbn [self _min_width _min_height _max_width _max_height _window_scaling]
    in Hmnw, Hmnh, Hmxw, Hmxh, Hs.
  subst mnw mnh mxw mxh.
  exists (py_int (inject_Z min_w * sc)), (py_int (inject_Z min_h * sc)),
         (py_int (inject_Z max_w * sc)), (py_int (inject_Z max_h * sc)).
  split; [|split; apply py_int_monotone; assumption].
  cbv -[py_int Qmult inject_Z app]. rewrite <- app_assoc. reflexivity.
Qed.

Lemma set_scaled_min_max_keeps_order_witness :
  exists a b c d,
    _set_scaled_min_max (realized_window (3 # 2))
    = (inr tt, mk_world (self (realized_window (3 # 2))) (tk (realized_window (3 # 2)))
                        (os (realized_window (3 # 2)))
                        ([] ++ [Tk_minsize (Some a) (Some b);
                                Tk_maxsize (Some c) (Some d)])%list
                        [])
    /\ a <= c /\ b <= d.
Proof.
  apply (set_scaled_min_max_keeps_order (realized_window (3 # 2)) 0 0 1000000 1000000);
    try reflexivity; try lia.
  vm_compute. discriminate.
Defined.

(** X9.  A scale change keeps the stored logical size and bounds, whatever
    its first two arguments; and until the release timer fires, a Configure
    event changes nothing and asks the toolkit nothing, whatever size the
    toolkit would report. *)
Theorem set_scaling_blocks_dimension_updates
        (wd : world) (widget_scaling spacing_scaling window_scaling : Q) (t' : toolkit) :
  let w1 := world_after (_set_scaling widget_scaling spacing_scaling window_scaling) wd in
  let resized := mk_world (self w1) t' (os w1) (calls w1) (pending w1) in
  self w1 = upd_block_update_dimensions_event true
              (upd_window_scaling window_scaling (self wd))
  /\ _update_dimensions_event resized = (inr tt, resized).
Proof. cbv zeta. split; reflexivity. Qed.

Lemma round_int_mul_div (w : Z) (s : Q) :
  (1 <= s)%Q -> 0 <= w ->
  w - 1 <= py_round (inject_Z (py_int (inject_Z w * s)) / s) <= w.
Proof.
  intros Hs Hw. destruct s as [a b]. unfold Qle in Hs. cbn in Hs.
  destruct a as [|a|a]; try lia.
  assert (Ht : py_int (inject_Z w * (Zpos a # b)) = (w * Zpos a) / Zpos b).
  { unfold py_int. cbn [Qnum Qden Qmult inject_Z Pos.mul].
    apply Z.quot_div_nonneg; nia. }
  rewrite Ht.
  pose proof (Z.div_mod (w * Zpos a) (Zpos b) ltac:(lia)) as E.
  pose proof (Z.mod_pos_bound (w * Zpos a) (Zpos b) ltac:(lia)) as B.
  set (t := (w * Zpos a) / Zpos b) in *.
  pose proof (py_round_bound (inject_Z t / (Zpos a # b))) as H2.
  set (r := py_round (inject_Z t / (Zpos a # b))) in *.
  cbn [Qnum Qden Qmult Qdiv Qinv inject_Z Pos.mul] in H2.
  clearbody r t.
  split; nia.
Qed.

(** The resize event on a window that is not blocked, at a scale that is not
    zero. *)
Lemma update_dimensions_event_runs (wd : world) :
  _block_update_dimensions_event (self wd) = false ->
  ~ (_window_scaling (self wd) == 0)%Q ->
  let w' := py_round (inject_Z (wm_width (tk wd)) / _window_scaling (self wd)) in
  let h' := py_round (inject_Z (wm_height (tk wd)) / _window_scaling (self wd)) in
  _update_dimensions_event wd
  = (inr tt,
     mk_world (upd_current_height h' (upd_current_width w' (self wd)))
              (tk wd) (os wd)
              (calls wd ++ [Tk_update_idletasks; Tk_winfo_width; Tk_winfo_height])%list
              (pending wd)).
Proof.
  intros Hb Hs.
  destruct wd as [s t o cs p].
  destruct s as [am sc cw ch mnw mnh mxw mxh lra fg sb we wc ic bl].
  destruct t as [st ge ww wh wid cg chs].
  cbn [self tk _block_update_dimensions_event _window_scaling wm_width wm_height] in *.
  subst bl. cbv zeta.
  assert (E : Qeq_bool sc 0 = false).
  { destruct (Qeq_bool sc 0) eqn:E; [apply Qeq_bool_iff in E; contradiction|reflexivity]. }
  cbv -[py_round Qdiv inject_Z app Z.eqb Qeq_bool]. rewrite E.
  destruct (Z.eqb_spec cw (py_round (inject_Z ww / sc)));
    destruct (Z.eqb_spec ch (py_round (inject_Z wh / sc)));
    subst; rewrite <- ?app_assoc; reflexivity.
Qed.

(** X10.  After a scale change to s >= 1, once the block is released and
    the toolkit reports the size it was forced to, int(w * s) by
    int(h * s), the resize event stores a logical size that is w or w - 1
    (and h or h - 1): the stored size can lose one unit to the truncation,
    never more, and never grows. *)
Theorem resize_event_after_forced_size (wd : world) (w h : Z) :
  _block_update_dimensions_event (self wd) = false ->
  (1 <= _window_scaling (self wd))%Q -> 0 <= w -> 0 <= h ->
  wm_width (tk wd) = py_int (inject_Z w * _window_scaling (self wd)) ->
  wm_height (tk wd) = py_int (inject_Z h * _window_scaling (self wd)) ->
  let wd' := world_after _update_dimensions_event wd in
  result _update_dimensions_event wd = inr tt
  /\ w - 1 <= _current_width (self wd') <= w
  /\ h - 1 <= _current_height (self wd') <= h.
Proof.
  intros Hb Hs Hw Hh Eww Ewh wd'. subst wd'.
  assert (Hsn : ~ (_window_scaling (self wd) == 0)%Q).
  { intros E. rewrite E in Hs. unfold Qle in Hs. simpl in Hs. lia. }
  unfold result, world_after.
  rewrite (update_dimensions_event_runs wd Hb Hsn). cbv zeta.
  cbn [fst snd self _current_width _current_height upd_current_width upd_current_height].
  rewrite Eww, Ewh.
  split; [reflexivity|]. split; apply round_int_mul_div; assumption.
Qed.

Lemma resize_event_after_forced_size_witness :
  let wd := mk_world (upd_current_width 5 (upd_window_exists true
                        (init_attributes 0 (23 # 20) (VStr "gray92"))))
                     (mk_toolkit "normal" "5x575+0+0" 5 575 1 (fun _ => VNone) [])
                     windows_host [] [] in
  let wd' := world_after _update_dimensions_event wd in
  result _update_dimensions_event wd = inr tt
  /\ 5 - 1 <= _current_width (self wd') <= 5
  /\ 500 - 1 <= _current_height (self wd') <= 500.
Proof.
  intros wd wd'.
  apply (resize_event_after_forced_size wd 5 500).
  - reflexivity.
  - vm_compute. discriminate.
  - lia.
  - lia.
  - reflexivity.
  - reflexivity.
Defined.

(** X11.  At a scale s >= 1, when the toolkit reports the size that
    [geometry] asked for, round(w * s) by round(h * s), the resize event
    stores exactly (w, h); it does so whatever the stored bounds are, and
    changes no other attribute. *)
Theorem resize_event_recovers_requested_size (wd : world) (w h : Z) :
  _block_update_dimensions_event (self wd) = false ->
  (1 <= _window_scaling (self wd))%Q ->
  wm_width (tk wd) = py_round (inject_Z w * _window_scaling (self wd)) ->
  wm_height (tk wd) = py_round (inject_Z h * _window_scaling (self wd)) ->
  _update_dimensions_event wd
  = (inr tt,
     mk_world (upd_current_height h (upd_current_width w (self wd)))
              (tk wd) (os wd)
              (calls wd ++ [Tk_update_idletasks; Tk_winfo_width; Tk_winfo_height])%list
              (pending wd)).
Proof.
  intros Hb Hs Eww Ewh.
  assert (Hsn : ~ (_window_scaling (self wd) == 0)%Q).
  { intros E. rewrite E in Hs. unfold Qle in Hs. simpl in Hs. lia. }
  rewrite (update_dimensions_event_runs wd Hb Hsn). cbv zeta.
  rewrite Eww, Ewh, !round_mul_div_exact by assumption. reflexivity.
Qed.

Lemma resize_event_recovers_requested_size_witness :
  let wd := mk_world (upd_window_exists true (init_attributes 0 (5 # 4) (VStr "gray92")))
                     (mk_toolkit "normal" "876x501+0+0" 876 501 1 (fun _ => VNone) [])
                     windows_host [] [] in
  _current_width (self (world_after _update_dimensions_event wd)) = 701
  /\ _current_height (self (world_after _update_dimensions_event wd)) = 401.
Proof.
  intros wd. unfold world_after.
  rewrite (resize_event_recovers_requested_size wd 701 401).
  - split; reflexivity.
  - reflexivity.
  - vm_compute. discriminate.
  - reflexivity.
  - reflexivity.
Defined.

(** ** Showing and hiding the window *)

(** X12.  A hide asked for before the first show is honoured: on a window
    not yet realized, [withdraw] (or [iconify]) followed by [update] or
    [mainloop] realizes the window without deiconifying it, on any platform;
    the toolkit sees the hide and then the update, and the window stays
    withdrawn (or iconified). *)
Theorem hide_before_first_show_is_kept (wd : world) :
  _window_exists (self wd) = false ->
  (calls_of (withdraw ;; update) wd = (calls wd ++ [Tk_withdraw; Tk_update])%list
   /\ wm_state (tk (world_after (withdraw ;; update) wd)) = "withdrawn"
   /\ _window_exists (self (world_after (withdraw ;; update) wd)) = true)
  /\ (calls_of (iconify ;; update) wd = (calls wd ++ [Tk_iconify; Tk_update])%list
      /\ wm_state (tk (world_after (iconify ;; update) wd)) = "iconic"
      /\ _window_exists (self (world_after (iconify ;; update) wd)) = true)
  /\ (calls_of (withdraw ;; mainloop) wd = (calls wd ++ [Tk_withdraw; Tk_mainloop])%list
      /\ wm_state (tk (world_after (withdraw ;; mainloop) wd)) = "withdrawn")
  /\ (calls_of (iconify ;; mainloop) wd = (calls wd ++ [Tk_iconify; Tk_mainloop])%list
      /\ wm_state (tk (world_after (iconify ;; mainloop) wd)) = "iconic").
Proof.
  intros He.
  destruct wd as [s t o cs p].
  destruct s as [am sc cw ch mnw mnh mxw mxh lra fg sb we wc ic bl].
  destruct o as [pf de sco gp dwm]. destruct t as [st ge ww wh wid cg chs].
  cbn [self _window_exists] in He. subst we.
  unfold calls_of, world_after.
  repeat split;
    cbv -[app startswith]; destruct (startswith pf "win");
    try destruct wc; try destruct ic; rewrite <- ?app_assoc; reflexivity.
Qed.

Lemma hide_before_first_show_is_kept_witness :
  let wd := a_world (init_attributes 0 1 (VStr "gray92")) "normal" "600x500+0+0" in
  calls_of (withdraw ;; update) wd = [Tk_withdraw; Tk_update]
  /\ wm_state (tk (world_after (withdraw ;; update) wd)) = "withdrawn".
Proof.
  intros wd.
  destruct (hide_before_first_show_is_kept wd eq_refl) as ((Hc & Hs & _) & _).
  split; [exact Hc | exact Hs].
Defined.

(** X13.  The window is realized once: after a first [update] (and likewise
    a first [mainloop]) the window exists, and from then on [update] and
    [mainloop] only make the toolkit's call, and [withdraw] and [iconify] no
    longer record a request made before the first show. *)
Theorem window_is_realized_once (wd : world) :
  let w1 := world_after update wd in
  let w2 := world_after mainloop wd in
  (_window_exists (self w1) = true
   /\ update w1 = (inr tt, record_call Tk_update w1)
   /\ mainloop w1 = (inr tt, record_call Tk_mainloop w1)
   /\ self (world_after withdraw w1) = self w1
   /\ self (world_after iconify w1) = self w1)
  /\ (_window_exists (self w2) = true
      /\ update w2 = (inr tt, record_call Tk_update w2)
      /\ mainloop w2 = (inr tt, record_call Tk_mainloop w2)).
Proof.
  destruct wd as [s t o cs p].
  destruct s as [am sc cw ch mnw mnh mxw mxh lra fg sb we wc ic bl].
  destruct o as [pf de sco gp dwm]. destruct t as [st ge ww wh wid cg chs].
  cbv zeta. unfold world_after.
  repeat split;
    cbv -[app startswith]; destruct we; try destruct (startswith pf "win");
    try destruct wc; try destruct ic; reflexivity.
Qed.

(** ** The titlebar colour *)

(** X14.  [_windows_set_titlebar_color] never raises: whatever the host,
    the window, the colour mode asked for and the outcome of the native
    calls, it returns normally. *)
Theorem titlebar_color_never_raises (wd : world) (color_mode : string) :
  result (_windows_set_titlebar_color color_mode) wd = inr tt.
Proof.
  destruct wd as [s t o cs p].
  destruct s as [am sc cw ch mnw mnh mxw mxh lra fg sb we wc ic bl].
  destruct o as [pf de sco gp dwm]. destruct t as [st ge ww wh wid cg chs].
  unfold result.
  cbv -[String.eqb lower app Z.eqb startswith str_ne orb].
  destruct (startswith pf "win"); destruct de; try reflexivity.
  destruct we.
  - rewrite withdraw_guard_always_holds.
    repeat (cbv -[String.eqb lower app Z.eqb];
            match goal with
            | |- context [String.eqb ?a ?b] => destruct (String.eqb a b)
            | |- context [gp ?a] => destruct (gp a)
            | |- context [dwm ?a ?b ?c] => destruct (dwm a b c)
            | |- context [Z.eqb ?a ?b] => destruct (Z.eqb a b)
            end); reflexivity.
  - repeat (cbv -[String.eqb lower app Z.eqb];
            match goal with
            | |- context [String.eqb ?a ?b] => destruct (String.eqb a b)
            | |- context [gp ?a] => destruct (gp a)
            | |- context [dwm ?a ?b ?c] => destruct (dwm a b c)
            | |- context [Z.eqb ?a ?b] => destruct (Z.eqb a b)
            end); reflexivity.
Qed.

(** X15.  On a realized window, with a colour mode that is "dark" or
    "light" in any case of letters, the window ends in the state it was in:
    whatever that state is and whatever the native calls answer, the state
    the toolkit reports after the call is the one it reported before; the
    attributes of the window are unchanged but for the recorded state, and
    no timer is scheduled. *)
Theorem titlebar_color_restores_state (wd : world) (color_mode : string) :
  startswith (platform (os wd)) "win" = true ->
  deactivate_windows_window_header_manipulation (os wd) = false ->
  _window_exists (self wd) = true ->
  lower color_mode = "dark" \/ lower color_mode = "light" ->
  let wd' := world_after (_windows_set_titlebar_color color_mode) wd in
  wm_state (tk wd') = wm_state (tk wd)
  /\ self wd'
     = upd_state_before_windows_set_titlebar_color (Some (wm_state (tk wd))) (self wd)
  /\ pending wd' = pending wd.
Proof.
  intros Hp Hd He Hm wd'. subst wd'.
  destruct wd as [s t o cs p].
  destruct s as [am sc cw ch mnw mnh mxw mxh lra fg sb we wc ic bl].
  destruct o as [pf de sco gp dwm]. destruct t as [st ge ww wh wid cg chs].
  cbn [os self tk platform deactivate_windows_window_header_manipulation
       _window_exists wm_state] in *.
  subst de we. unfold world_after.
  cbv -[String.eqb lower app Z.eqb startswith str_ne orb].
  rewrite Hp, withdraw_guard_always_holds.
  destruct Hm as [Hm|Hm]; rewrite Hm;
    repeat (cbv -[String.eqb lower app Z.eqb];
            match goal with
            | |- context [String.eqb ?a ?b] =>
                destruct (String.eqb_spec a b); try discriminate; try congruence; subst
            | |- context [gp ?a] => destruct (gp a)
            | |- context [dwm ?a ?b ?c] => destruct (dwm a b c)
            | |- context [Z.eqb ?a ?b] => destruct (Z.eqb a b)
            end); repeat split.
Qed.

Lemma titlebar_color_restores_state_witness :
  let wd := a_world (upd_window_exists true (init_attributes 1 1 (VStr "gray14")))
                    "zoomed" "1920x1080+0+0" in
  wm_state (tk (world_after (_windows_set_titlebar_color "Dark") wd)) = "zoomed".
Proof.
  intros wd.
  destruct (titlebar_color_restores_state wd "Dark" eq_refl eq_refl eq_refl
              (or_introl eq_refl)) as (H & _).
  exact H.
Defined.

(** X16.  The native calls and their fall-back, on a realized window in the
    state "normal": after the state query and the withdraw come winfo_id and
    GetParent; then DwmSetWindowAttribute with attribute 20 and the value 1
    for dark, 0 for light; attribute 19 is tried, with the same value,
    exactly when attribute 20 returns a code other than 0; a native call
    that raises is followed by the print of the error and by nothing else
    native; the deiconify comes last in every case. *)
Theorem titlebar_color_native_calls (wd : world) (color_mode : string) (value : Z) :
  startswith (platform (os wd)) "win" = true ->
  deactivate_windows_window_header_manipulation (os wd) = false ->
  _window_exists (self wd) = true ->
  wm_state (tk wd) = "normal" ->
  lower color_mode = "dark" /\ value = 1 \/ lower color_mode = "light" /\ value = 0 ->
  let id := wm_id (tk wd) in
  let native :=
    match get_parent (os wd) id with
    | None => [Print_err]
    | Some hwnd =>
        DwmSetWindowAttribute hwnd 20 value
        :: match dwm_set_window_attribute (os wd) hwnd 20 value with
           | None => [Print_err]
           | Some rc =>
               if rc =? 0 then []
               else DwmSetWindowAttribute hwnd 19 value
                    :: match dwm_set_window_attribute (os wd) hwnd 19 value with
                       | None => [Print_err]
                       | Some _ => []
                       end
           end
    end in
  calls_of (_windows_set_titlebar_color color_mode) wd
  = (calls wd ++ [Tk_state_query; Tk_withdraw; Tk_winfo_id; GetParent id]
     ++ native ++ [Tk_deiconify])%list.
Proof.
  intros Hp Hd He Hst Hm id native. subst id native.
  destruct wd as [s t o cs p].
  destruct s as [am sc cw ch mnw mnh mxw mxh lra fg sb we wc ic bl].
  destruct o as [pf de sco gp dwm]. destruct t as [st ge ww wh wid cg chs].
  cbn [os self tk platform deactivate_windows_window_header_manipulation
       _window_exists wm_state wm_id get_parent dwm_set_window_attribute calls] in *.
  subst de we st. unfold calls_of.
  assert (Hcm : (if String.eqb (lower color_mode) "dark" then Some 1
                 else if String.eqb (lower color_mode) "light" then Some 0
                 else None) = Some value).
  { destruct Hm as [[-> ->]|[-> ->]]; reflexivity. }
  clear Hm.
  destruct (gp wid) as [hwnd|] eqn:G;
    [ destruct (dwm hwnd 20 value) as [rc|] eqn:D20;
      [ destruct (rc =? 0) eqn:R;
        [ | destruct (dwm hwnd 19 value) as [r|] eqn:D19 ] | ] | ];
    cbv -[String.eqb lower app Z.eqb startswith str_ne orb];
    rewrite Hp, withdraw_guard_always_holds;
    cbv -[String.eqb lower app Z.eqb]; rewrite Hcm;
    cbv -[String.eqb lower app Z.eqb]; rewrite G;
    cbv -[String.eqb lower app Z.eqb]; rewrite ?D20;
    cbv -[String.eqb lower app Z.eqb]; rewrite ?R;
    cbv -[String.eqb lower app Z.eqb]; rewrite ?D19;
    cbv -[app]; rewrite <- ?app_assoc; reflexivity.
Qed.

Lemma titlebar_color_native_calls_witness :
  let old_build := mk_host "win32" false (fun _ _ => "")
                           (fun id => Some (id + 100))
                           (fun _ attribute _ => Some (if attribute =? 20 then 1 else 0)) in
  let wd := mk_world (upd_window_exists true (init_attributes 1 1 (VStr "gray14")))
                     (a_toolkit "normal" "600x500+0+0") old_build [] [] in
  calls_of (_windows_set_titlebar_color "dark") wd
  = [Tk_state_query; Tk_withdraw; Tk_winfo_id; GetParent 1;
     DwmSetWindowAttribute 101 20 1; DwmSetWindowAttribute 101 19 1; Tk_deiconify].
Proof.
  intros old_build wd.
  apply (titlebar_color_native_calls wd "dark" 1 eq_refl eq_refl eq_refl eq_refl
           (or_introl (conj eq_refl eq_refl))).
Defined.

(** X17.  A colour mode that is neither "dark" nor "light" makes no native
    call; on a realized window the state has been recorded and the window
    withdrawn by then, and it is left withdrawn. *)
Theorem titlebar_color_unknown_mode (wd : world) (color_mode : string) :
  startswith (platform (os wd)) "win" = true ->
  deactivate_windows_window_header_manipulation (os wd) = false ->
  _window_exists (self wd) = true ->
  lower color_mode <> "dark" -> lower color_mode <> "light" ->
  _windows_set_titlebar_color color_mode wd
  = (inr tt,
     set_wm_state "withdrawn"
       (mk_world (upd_state_before_windows_set_titlebar_color
                    (Some (wm_state (tk wd))) (self wd))
                 (tk wd) (os wd)
                 (calls wd ++ [Tk_state_query; Tk_withdraw])%list (pending wd))).
Proof.
  intros Hp Hd He Hdark Hlight.
  destruct wd as [s t o cs p].
  destruct s as [am sc cw ch mnw mnh mxw mxh lra fg sb we wc ic bl].
  destruct o as [pf de sco gp dwm]. destruct t as [st ge ww wh wid cg chs].
  cbn [os self tk platform deactivate_windows_window_header_manipulation
       _window_exists wm_state] in *.
  subst de we.
  apply String.eqb_neq in Hdark, Hlight.
  cbv -[String.eqb lower app Z.eqb startswith str_ne orb].
  rewrite Hp, withdraw_guard_always_holds, Hdark, Hlight.
  rewrite <- ?app_assoc. reflexivity.
Qed.

Lemma titlebar_color_unknown_mode_witness :
  wm_state (tk (world_after (_windows_set_titlebar_color "system") (realized_window 1)))
  = "withdrawn".
Proof.
  unfold world_after.
  rewrite (titlebar_color_unknown_mode (realized_window 1) "system" eq_refl eq_refl eq_refl).
  - reflexivity.
  - discriminate.
  - discriminate.
Defined.

(** On a Windows host, before the first show: the window is withdrawn with
    the toolkit's own [withdraw] and updated, the native calls follow, and
    nothing else changes; the attributes of the window are untouched. *)
Lemma titlebar_color_before_first_show (wd : world) (color_mode : string) :
  startswith (platform (os wd)) "win" = true ->
  deactivate_windows_window_header_manipulation (os wd) = false ->
  _window_exists (self wd) = false ->
  exists native,
    _windows_set_titlebar_color color_mode wd
    = (inr tt,
       set_wm_state "withdrawn"
         (mk_world (self wd) (tk wd) (os wd)
                   (calls wd ++ [Tk_withdraw; Tk_update] ++ native)%list (pending wd))).
Proof.
  intros Hp Hd He.
  destruct wd as [s t o cs p].
  destruct s as [am sc cw ch mnw mnh mxw mxh lra fg sb we wc ic bl].
  destruct o as [pf de sco gp dwm]. destruct t as [st ge ww wh wid cg chs].
  cbn [os self tk platform deactivate_windows_window_header_manipulation
       _window_exists calls pending] in *.
  subst de we.
  cbv -[String.eqb lower app Z.eqb startswith].
  rewrite Hp.
  repeat (cbv -[String.eqb lower app Z.eqb];
          match goal with
          | |- context [String.eqb ?a ?b] => destruct (String.eqb a b)
          | |- context [gp ?a] => destruct (gp a)
          | |- context [dwm ?a ?b ?c] => destruct (dwm a b c)
          | |- context [Z.eqb ?a ?b] => destruct (Z.eqb a b)
          end);
    eexists; cbv -[app]; rewrite <- ?app_assoc; cbn [app];
    repeat f_equal; try reflexivity.
  all: try (instantiate (1 := []); reflexivity).
Qed.

(** X18.  Before the first show the titlebar code hides the window with the
    toolkit's own withdraw, which does not count as a request of the caller:
    on a Windows host, a window not yet realized and not hidden by its
    caller is deiconified by the first [update] that follows, and ends in
    the state "normal". *)
Theorem titlebar_color_then_first_update_shows (wd : world) (color_mode : string) :
  startswith (platform (os wd)) "win" = true ->
  deactivate_windows_window_header_manipulation (os wd) = false ->
  _window_exists (self wd) = false ->
  _withdraw_called_before_window_exists (self wd) = false ->
  _iconify_called_before_window_exists (self wd) = false ->
  let wd' := world_after (_windows_set_titlebar_color color_mode ;; update) wd in
  result (_windows_set_titlebar_color color_mode ;; update) wd = inr tt
  /\ wm_state (tk wd') = "normal"
  /\ self wd' = upd_window_exists true (self wd)
  /\ exists native,
       calls wd' = (calls wd ++ [Tk_withdraw; Tk_update] ++ native
                    ++ [Tk_deiconify; Tk_update])%list.
Proof.
  intros Hp Hd He Hwc Hic wd'. subst wd'.
  destruct (titlebar_color_before_first_show wd color_mode Hp Hd He) as [native E].
  unfold result, world_after, bind. rewrite E. clear E.
  destruct wd as [s t o cs p].
  destruct s as [am sc cw ch mnw mnh mxw mxh lra fg sb we wc ic bl].
  destruct o as [pf de sco gp dwm]. destruct t as [st ge ww wh wid cg chs].
  cbn [os self tk platform deactivate_windows_window_header_manipulation
       _window_exists _withdraw_called_before_window_exists
       _iconify_called_before_window_exists calls pending] in *.
  subst de we wc ic.
  cbv -[app startswith]. rewrite Hp.
  repeat split. exists native.
  rewrite <- !app_assoc. reflexivity.
Qed.

Lemma titlebar_color_then_first_update_shows_witness :
  let wd := a_world (init_attributes 1 1 (VStr "gray14")) "normal" "600x500+0+0" in
  wm_state (tk (world_after (_windows_set_titlebar_color "dark" ;; update) wd)) = "normal"
  /\ _window_exists (self (world_after (_windows_set_titlebar_color "dark" ;; update) wd))
     = true.
Proof.
  intros wd.
  pose proof (titlebar_color_then_first_update_shows wd "dark"
                eq_refl eq_refl eq_refl eq_refl eq_refl) as H.
  cbv zeta in H. destruct H as (_ & Hs & Hself & _).
  split; [exact Hs | rewrite Hself; reflexivity].
Defined.
(** ** The appearance mode, [resizable] and the children *)

(** One run of [_windows_set_titlebar_color], on any host and any window.
    It returns normally; of the attributes it writes the recorded state
    only; of the toolkit it changes the state only; it adds calls and
    schedules nothing.  Off Windows it makes no call.  On Windows, with the
    header manipulation active and a parent window found, attribute 20 is
    set to the value of the mode.  On a realized window a mode that is dark
    or light leaves the state of the window as it was. *)
Lemma titlebar_color_run (wd : world) (color_mode : string) :
  exists sb st extra,
    _windows_set_titlebar_color color_mode wd
    = (inr tt,
       set_wm_state st
         (mk_world (upd_state_before_windows_set_titlebar_color sb (self wd))
                   (tk wd) (os wd) (calls wd ++ extra)%list (pending wd)))
    /\ (startswith (platform (os wd)) "win" = false -> extra = [])
    /\ (forall value hwnd,
          startswith (platform (os wd)) "win" = true ->
          deactivate_windows_window_header_manipulation (os wd) = false ->
          lower color_mode = "dark" /\ value = 1
          \/ lower color_mode = "light" /\ value = 0 ->
          get_parent (os wd) (wm_id (tk wd)) = Some hwnd ->
          In (DwmSetWindowAttribute hwnd 20 value) extra)
    /\ (_window_exists (self wd) = true ->
        lower color_mode = "dark" \/ lower color_mode = "light" ->
        st = wm_state (tk wd)).
Proof.
  destruct wd as [s t o cs p].
  destruct s as [am sc cw ch mnw mnh mxw mxh lra fg sb we wc ic bl].
  destruct o as [pf de sco gp dwm]. destruct t as [st ge ww wh wid cg chs].
  cbv -[String.eqb lower app Z.eqb startswith str_ne orb In].
  destruct (startswith pf "win"); destruct de;
    try (exists sb, st, []; rewrite app_nil_r;
         split; [reflexivity | repeat split; intros; try discriminate; auto]).
  destruct (gp wid) as [hwnd0|] eqn:G; destruct we;
    rewrite ?withdraw_guard_always_holds;
    repeat (cbv -[String.eqb lower app Z.eqb In];
            match goal with
            | |- context [String.eqb ?a ?b] =>
                destruct (String.eqb_spec a b); try subst st
            | |- context [dwm ?a ?b ?c] => destruct (dwm a b c)
            | |- context [Z.eqb ?a ?b] => destruct (Z.eqb a b)
            | |- context [gp wid] => rewrite G
            end);
    rewrite <- ?app_assoc; cbn [app]; do 3 eexists;
    (split; [reflexivity | ]);
    (split; [discriminate | ]);
    (split;
     [ intros value hwnd _ _ Hm Hg; try discriminate Hg;
       try (injection Hg as <-);
       destruct Hm as [[Hm ->]|[Hm ->]]; try congruence; cbn [In]; auto 10
     | intros He Hm; try discriminate He;
       try reflexivity; destruct Hm; congruence ]).
Qed.

(** X19.  [_set_appearance_mode] reads the mode without regard to the case
    of its letters ("dark" gives 1, "light" gives 0) and keeps the current
    mode on any other string; it never raises; it leaves [fg_color] alone;
    its last call gives the toolkit the background that [fg_color] has in
    the resulting mode; off Windows that is its only call. *)
Theorem set_appearance_mode_sets_mode_and_background
    (wd : world) (mode_string : string) :
  let mode := if String.eqb (lower mode_string) "dark" then 1
              else if String.eqb (lower mode_string) "light" then 0
              else _appearance_mode (self wd) in
  let wd' := world_after (_set_appearance_mode mode_string) wd in
  result (_set_appearance_mode mode_string) wd = inr tt
  /\ _appearance_mode (self wd') = mode
  /\ _fg_color (self wd') = _fg_color (self wd)
  /\ exists titlebar,
       calls wd'
       = (calls wd ++ titlebar
          ++ [Tk_configure
                [("bg", VStr (single_color (os wd) (_fg_color (self wd)) mode))]])%list
       /\ (startswith (platform (os wd)) "win" = false -> titlebar = []).
Proof.
  destruct wd as [s t o cs p].
  destruct s as [am sc cw ch mnw mnh mxw mxh lra fg sb we wc ic bl].
  destruct o as [pf de sco gp dwm]. destruct t as [st ge ww wh wid cg chs].
  cbv zeta. unfold result, world_after.
  cbv -[String.eqb lower app Z.eqb startswith _windows_set_titlebar_color].
  destruct (String.eqb (lower mode_string) "dark");
    [ | destruct (String.eqb (lower mode_string) "light") ];
    cbv -[String.eqb lower app Z.eqb startswith _windows_set_titlebar_color];
    (destruct (startswith pf "win") eqn:Hp;
     [ match goal with |- context [Z.eqb ?a ?b] => destruct (Z.eqb a b) end;
       match goal with
       | |- context [_windows_set_titlebar_color ?c ?w] =>
           destruct (titlebar_color_run w c) as (sb' & st' & extra & E & _);
           rewrite E
       end;
       cbv -[app]; repeat split; exists extra;
       (split; [rewrite <- app_assoc; reflexivity | discriminate])
     | cbv -[app]; repeat split; exists []; split; reflexivity ]).
Qed.

(** X20.  On Windows the titlebar follows the mode that
    [_set_appearance_mode] has just set: when the parent window is found,
    DwmSetWindowAttribute is called on it with attribute 20 and the value 1
    if the resulting mode is 1 (dark), 0 otherwise. *)
Theorem set_appearance_mode_colours_titlebar
    (wd : world) (mode_string : string) (hwnd : Z) :
  startswith (platform (os wd)) "win" = true ->
  deactivate_windows_window_header_manipulation (os wd) = false ->
  get_parent (os wd) (wm_id (tk wd)) = Some hwnd ->
  let mode := if String.eqb (lower mode_string) "dark" then 1
              else if String.eqb (lower mode_string) "light" then 0
              else _appearance_mode (self wd) in
  In (DwmSetWindowAttribute hwnd 20 (if mode =? 1 then 1 else 0))
     (calls_of (_set_appearance_mode mode_string) wd).
Proof.
  intros Hp Hd Hg.
  destruct wd as [s t o cs p].
  destruct s as [am sc cw ch mnw mnh mxw mxh lra fg sb we wc ic bl].
  destruct o as [pf de sco gp dwm]. destruct t as [st ge ww wh wid cg chs].
  cbn [os self tk platform deactivate_windows_window_header_manipulation
       get_parent wm_id _appearance_mode] in *.
  cbv zeta. unfold calls_of.
  cbv -[String.eqb lower app Z.eqb startswith _windows_set_titlebar_color In].
  destruct (String.eqb (lower mode_string) "dark");
    [ | destruct (String.eqb (lower mode_string) "light") ];
    cbv -[String.eqb lower app Z.eqb startswith _windows_set_titlebar_color In];
    rewrite Hp;
    match goal with |- context [Z.eqb ?a ?b] => destruct (Z.eqb a b) eqn:Hmode end;
    match goal with
    | |- context [_windows_set_titlebar_color ?c ?w] =>
        destruct (titlebar_color_run w c) as (sb' & st' & extra & E & _ & Hin & _);
        rewrite E
    end;
    cbv -[app In]; rewrite !in_app_iff; left; right;
    apply Hin; auto.
Qed.

Lemma set_appearance_mode_colours_titlebar_witness :
  In (DwmSetWindowAttribute 1 20 1)
     (calls_of (_set_appearance_mode "DARK") (realized_window 1)).
Proof.
  apply (set_appearance_mode_colours_titlebar (realized_window 1) "DARK" 1
           eq_refl eq_refl eq_refl).
Defined.

(** X21.  [resizable] on a realized window: it never raises, makes the
    toolkit's call first, records its two arguments, and leaves the window in
    the state it was in although the titlebar is coloured again on Windows;
    off Windows the toolkit's call is its only call. *)
Theorem resizable_keeps_window_state (wd : world) (width height : option bool) :
  _window_exists (self wd) = true ->
  let wd' := world_after (resizable width height) wd in
  result (resizable width height) wd = inr tt
  /\ _last_resizable_args (self wd') = Some (width, height)
  /\ wm_state (tk wd') = wm_state (tk wd)
  /\ exists titlebar,
       calls wd' = (calls wd ++ Tk_resizable width height :: titlebar)%list
       /\ (startswith (platform (os wd)) "win" = false -> titlebar = []).
Proof.
  intros He.
  destruct wd as [s t o cs p].
  destruct s as [am sc cw ch mnw mnh mxw mxh lra fg sb we wc ic bl].
  destruct o as [pf de sco gp dwm]. destruct t as [st ge ww wh wid cg chs].
  cbn [self _window_exists] in He. subst we.
  cbv zeta. unfold result, world_after.
  cbv -[String.eqb lower app Z.eqb startswith _windows_set_titlebar_color].
  destruct (startswith pf "win") eqn:Hp.
  - match goal with |- context [Z.eqb ?a ?b] => destruct (Z.eqb a b) end;
      match goal with
      | |- context [_windows_set_titlebar_color ?c ?w] =>
          destruct (titlebar_color_run w c) as (sb' & st' & extra & E & _ & _ & Hst);
          rewrite E
      end;
      cbv -[app]; cbv -[app] in Hst;
      (split; [reflexivity | split; [reflexivity | split; [apply Hst; auto | ]]]);
      exists extra; (split; [rewrite <- app_assoc; reflexivity | discriminate]).
  - cbv -[app]. repeat split. exists []. split; reflexivity.
Qed.

Lemma resizable_keeps_window_state_witness :
  let wd := a_world (upd_window_exists true (init_attributes 1 1 (VStr "gray14")))
                    "zoomed" "1920x1080+0+0" in
  wm_state (tk (world_after (resizable (Some false) (Some false)) wd)) = "zoomed"
  /\ _last_resizable_args (self (world_after (resizable (Some false) (Some false)) wd))
     = Some (Some false, Some false).
Proof.
  intros wd.
  pose proof (resizable_keeps_window_state wd (Some false) (Some false) eq_refl) as H.
  cbv zeta in H. destruct H as (_ & Ha & Hs & _).
  split; [exact Hs | exact Ha].
Defined.

(** The loop over the children, exactly: every child is asked in turn, a
    child that takes [bg_color] is given the colour, the others are left as
    they were, and nothing is raised. *)
Lemma configure_children_exact (cs : list child) (fg : pyval) :
  forall (index : nat) (w : world),
    configure_children index cs fg w
    = (inr (map (fun c => if accepts_bg_color c then mk_child true (Some fg) else c) cs),
       mk_world (self w) (tk w) (os w)
         (calls w ++ map (fun i => Child_configure i [("bg_color", fg)])
                         (seq index (List.length cs)))%list
         (pending w)).
Proof.
  induction cs as [|c cs IH]; intros index w.
  - cbn [configure_children ret map List.length seq]. rewrite app_nil_r. now destruct w.
  - cbn [configure_children]. unfold bind at 1. cbn [super].
    unfold bind at 1. rewrite IH.
    cbn [ret record_call self tk os calls pending map List.length seq].
    rewrite <- app_assoc. reflexivity.
Qed.

(** X22.  [configure] with an [fg_color] hands the colour to every child of
    the window, in order: a child that rejects the option does not stop the
    loop and is left as it was, a child that takes it holds the new colour.
    The toolkit is given the background first and asked for the children
    next.  This holds whether or not [configure] then raises on another
    option. *)
Theorem configure_fg_color_reaches_every_child (wd : world) (kw : kwargs) (v : pyval) :
  kwargs_get "fg_color" kw = Some v ->
  let wd' := world_after (configure kw) wd in
  children (tk wd')
  = map (fun c => if accepts_bg_color c then mk_child true (Some v) else c)
        (children (tk wd))
  /\ exists rest,
       calls wd'
       = (calls wd
          ++ [Tk_configure
                [("bg", VStr (single_color (os wd) v (_appearance_mode (self wd))))];
              Tk_winfo_children]
          ++ map (fun i => Child_configure i [("bg_color", v)])
                 (seq 0 (List.length (children (tk wd))))
          ++ rest)%list.
Proof.
  intros Hv. cbv zeta.
  assert (E : exists r recognized,
             configure kw wd
             = (r, set_children
                     (map (fun c => if accepts_bg_color c then mk_child true (Some v)
                                    else c) (children (tk wd)))
                     (mk_world (upd_fg_color v (self wd)) (tk wd) (os wd)
                        (calls wd
                         ++ [Tk_configure
                               [("bg", VStr (single_color (os wd) v
                                               (_appearance_mode (self wd))))];
                             Tk_winfo_children]
                         ++ map (fun i => Child_configure i [("bg_color", v)])
                                (seq 0 (List.length (children (tk wd))))
                         ++ [Tk_configure recognized])%list
                        (pending wd)))).
  { unfold configure, configure_fg_color. rewrite Hv.
    unfold bind at 1. unfold bind at 1. cbn [assign]. unfold bind at 1. cbn [attr].
    unfold bind at 1. cbn [attr]. unfold bind at 1. cbn [from_host].
    unfold bind at 1. cbn [super]. unfold bind at 1. cbn [ask].
    unfold bind at 1. rewrite configure_children_exact.
    unfold bind at 1. unfold bind at 1. cbn [ret].
    destruct (pop_from_dict_by_set (kwargs_remove "fg_color" kw)
                _valid_tk_configure_arguments) as [recognized rest].
    unfold bind at 1. cbn [super]. unfold bind.
    destruct wd as [s t o cs p].
    destruct s as [am sc cw ch mnw mnh mxw mxh lra fg sb we wc ic bl].
    destruct t as [st ge ww wh wid cg chs].
    destruct rest as [|kv rest];
      cbv -[app map seq List.length];
      eexists; exists recognized; rewrite <- !app_assoc; reflexivity. }
  destruct E as (r & recognized & E).
  unfold world_after. rewrite E.
  destruct wd as [s t o cs p]. destruct t as [st ge ww wh wid cg chs].
  cbn [snd set_children tk children calls self os].
  split; [reflexivity | ].
  exists [Tk_configure recognized]. reflexivity.
Qed.

Lemma configure_fg_color_reaches_every_child_witness :
  let wd := mk_world (init_attributes 0 1 (VStr "gray92"))
              (mk_toolkit "normal" "600x500+0+0" 600 500 1 (fun _ => VNone)
                 [mk_child true None; mk_child false None;
                  mk_child true (Some (VStr "gray92"))])
              windows_host [] [] in
  children (tk (world_after (configure [("fg_color", VStr "navy"); ("text", VStr "x")]) wd))
  = [mk_child true (Some (VStr "navy")); mk_child false None;
     mk_child true (Some (VStr "navy"))].
Proof.
  intros wd.
  pose proof (configure_fg_color_reaches_every_child wd
                [("fg_color", VStr "navy"); ("text", VStr "x")] (VStr "navy") eq_refl) as H.
  cbv zeta in H. destruct H as (Hc & _). exact Hc.
Defined.
